(** * tts-google backend: voice directory cache, pricing estimator and
      synthesis request handler

    A shallow embedding of the Express server of the repository
    (server/index.js, kept here as src/unnamed/part_000, lines 1-239).

    - JavaScript strings are sequences of UTF-16 code units; [length] is
      the [.length] property and [includes] is [String.prototype.includes].
    - JavaScript numbers are IEEE-754 binary64 values: the primitive
      floats of Rocq, with the same rounding.
    - The module-level [voicesCache] variable and the two remote
      operations of the Google client are made explicit: a handler is a
      function of a [World] (clock, configuration, what the remote service
      answers) and a [Store] (the cache and a log of the remote calls). *)

From Stdlib Require Import List ZArith NArith Bool Ascii String Lia.
From Stdlib.Strings Require Import Byte.
From Stdlib Require Import PrimFloat.
From Stdlib Require Import Sorted.
From Stdlib Require Import Floats.
Import ListNotations.

Set Implicit Arguments.

(* ================================================================= *)
(** ** JavaScript strings *)

Module JsString.

(** A UTF-16 code unit. *)
Definition code_unit := N.

Definition t := list code_unit.

(** The string literal [s], character by character (the literals of
    the source are ASCII). *)
Definition lit (s : string) : t :=
  List.map N_of_ascii (list_ascii_of_string s).

Fixpoint eqb (a b : t) : bool :=
  match a, b with
  | [], [] => true
  | x :: a', y :: b' => N.eqb x y && eqb a' b'
  | _, _ => false
  end.

(** [s.startsWith(pat)] *)
Fixpoint startsWith (pat s : t) : bool :=
  match pat, s with
  | [], _ => true
  | p :: pat', c :: s' => N.eqb p c && startsWith pat' s'
  | _ :: _, [] => false
  end.

(** [s.includes(pat)]: [pat] occurs in [s] at some position. *)
Fixpoint includes (s pat : t) : bool :=
  startsWith pat s
  || match s with
     | [] => false
     | _ :: s' => includes s' pat
     end.

(** What [includes] decides. *)
Definition occurs_in (pat s : t) : Prop :=
  exists before after, s = before ++ pat ++ after.

(** Truthiness of a string: only the empty string is falsy. *)
Definition truthy (s : t) : bool :=
  match s with [] => false | _ :: _ => true end.

(** Lexicographic order on code units, the order of [Array.prototype.sort]
    without a comparator. *)
Fixpoint ltb (a b : t) : bool :=
  match a, b with
  | _, [] => false
  | [], _ :: _ => true
  | x :: a', y :: b' => N.ltb x y || (N.eqb x y && ltb a' b')
  end.

End JsString.

Definition jsstring : Type := JsString.t.
Definition js : string -> jsstring := JsString.lit.

(* ================================================================= *)
(** ** Pricing tiers and classification by name *)

(** The values [voiceTypeFromName] can return. *)
Inductive VoiceType :=
  | STUDIO | NEURAL2 | WAVENET | STANDARD | CHIRP_HD | POLYGLOT | OTHER.

(** The string each tier is in the source, used as a property key. *)
Definition tierKey (t : VoiceType) : jsstring :=
  match t with
  | STUDIO => js "STUDIO"
  | NEURAL2 => js "NEURAL2"
  | WAVENET => js "WAVENET"
  | STANDARD => js "STANDARD"
  | CHIRP_HD => js "CHIRP_HD"
  | POLYGLOT => js "POLYGLOT"
  | OTHER => js "OTHER"
  end.

Definition VoiceType_eqb (a b : VoiceType) : bool :=
  match a, b with
  | STUDIO, STUDIO | NEURAL2, NEURAL2 | WAVENET, WAVENET
  | STANDARD, STANDARD | CHIRP_HD, CHIRP_HD | POLYGLOT, POLYGLOT
  | OTHER, OTHER => true
  | _, _ => false
  end.

(** index.js, lines 34-43. *)
Definition voiceTypeFromName (voiceName : jsstring) : VoiceType :=
  let n := voiceName in
  if JsString.includes n (js "-Studio-") then STUDIO
  else if JsString.includes n (js "-Neural2-") then NEURAL2
  else if JsString.includes n (js "-Wavenet-")
          || JsString.includes n (js "-WaveNet-") then WAVENET
  else if JsString.includes n (js "-Standard-") then STANDARD
  else if JsString.includes n (js "Chirp3-HD")
          || JsString.includes n (js "Chirp-HD")
          || JsString.includes n (js "-Chirp-") then CHIRP_HD
  else if JsString.includes n (js "-Polyglot-") then POLYGLOT
  else OTHER.

(** The classification as the specification words it: an ordered table of
    (patterns, tier); the first row with a pattern that occurs in the
    identifier wins, and OTHER is the default. *)
Definition tierPatterns : list (list jsstring * VoiceType) :=
  [ ([js "-Studio-"], STUDIO);
    ([js "-Neural2-"], NEURAL2);
    ([js "-Wavenet-"; js "-WaveNet-"], WAVENET);
    ([js "-Standard-"], STANDARD);
    ([js "Chirp3-HD"; js "Chirp-HD"; js "-Chirp-"], CHIRP_HD);
    ([js "-Polyglot-"], POLYGLOT) ].

Definition rowMatches (n : jsstring) (row : list jsstring * VoiceType) : bool :=
  existsb (JsString.includes n) (fst row).

Definition classifyByFirstMatch (n : jsstring) : VoiceType :=
  match find (rowMatches n) tierPatterns with
  | Some row => snd row
  | None => OTHER
  end.

(* ================================================================= *)
(** ** Pricing estimator *)

Open Scope float_scope.

(** index.js, lines 24-32: USD per one million characters. *)
Definition PRICE_PER_1M_USD : list (jsstring * float) :=
  [ (js "STANDARD", 4);
    (js "WAVENET", 4);
    (js "NEURAL2", 16);
    (js "STUDIO", 160);
    (js "CHIRP_HD", 30);
    (js "POLYGLOT", 16);
    (js "OTHER", 16) ].

(** What reading a property of an object literal of numbers can give. *)
Inductive PropertyValue :=
  | NumberValue (x : float)
  | ObjectValue          (* a function or object found on the prototype *)
  | Undefined.

(** The property names every object literal inherits from
    [Object.prototype]: [o[k]] finds them when [o] has no own property
    [k], and their values are functions or objects, never numbers. *)
Definition Object_prototype_keys : list jsstring :=
  [ js "constructor"; js "__proto__"; js "hasOwnProperty";
    js "isPrototypeOf"; js "propertyIsEnumerable"; js "toLocaleString";
    js "toString"; js "valueOf"; js "__defineGetter__";
    js "__defineSetter__"; js "__lookupGetter__"; js "__lookupSetter__" ].

Fixpoint ownProperty (o : list (jsstring * float)) (k : jsstring) : option float :=
  match o with
  | [] => None
  | (k', x) :: o' => if JsString.eqb k' k then Some x else ownProperty o' k
  end.

(** [o[k]] *)
Definition getProperty (o : list (jsstring * float)) (k : jsstring) : PropertyValue :=
  match ownProperty o k with
  | Some x => NumberValue x
  | None =>
      if existsb (JsString.eqb k) Object_prototype_keys then ObjectValue
      else Undefined
  end.

(** [a ?? b] *)
Definition nullish (a b : PropertyValue) : PropertyValue :=
  match a with
  | Undefined => b
  | _ => a
  end.

(** The conversion an arithmetic operator applies to its operand. *)
Definition ToNumber (v : PropertyValue) : float :=
  match v with
  | NumberValue x => x
  | ObjectValue => nan
  | Undefined => nan
  end.

(** index.js, lines 45-48. *)
Definition estimateCostUsd (voiceType : jsstring) (charCount : float) : float :=
  let per1m := nullish (getProperty PRICE_PER_1M_USD voiceType)
                       (getProperty PRICE_PER_1M_USD (js "OTHER")) in
  (ToNumber per1m / 1000000) * charCount.

Close Scope float_scope.

(** [Number(n)] for a non-negative integer: exact below 2^53, which
    every string length is. *)
Fixpoint float_of_positive (p : positive) : float :=
  match p with
  | xH => 1
  | xO q => 2 * float_of_positive q
  | xI q => 2 * float_of_positive q + 1
  end%float.

Definition float_of_nat (n : nat) : float :=
  match N.of_nat n with
  | N0 => 0%float
  | Npos p => float_of_positive p
  end.

(* ================================================================= *)
(** ** Data model *)

(** A record of the remote [listVoices] answer; an absent field is [None]. *)
Record RawVoice := {
  raw_name : option jsstring;
  raw_languageCodes : option (list jsstring);
  raw_ssmlGender : option jsstring;
  raw_naturalSampleRateHertz : option Z
}.

(** The shape [listVoicesCached] stores and serves (lines 62-68). *)
Record Voice := {
  name : option jsstring;
  languageCodes : list jsstring;
  ssmlGender : jsstring;
  naturalSampleRateHertz : option Z;      (* [None] is [null] *)
  voiceType : VoiceType
}.

(** [let voicesCache = { atMs: 0, voices: [] }], lines 51-54. *)
Record VoicesCache := {
  atMs : Z;
  voices : list Voice
}.

Inductive InputType := text_input | ssml_input.

Inductive AudioEncoding := MP3 | OGG_OPUS | LINEAR16 | MULAW.

(** A request body accepted by [SynthesizeSchema]. *)
Record Parsed := {
  inputType : InputType;
  text : jsstring;
  voiceName : jsstring;
  languageCode : option jsstring;
  audioEncoding : AudioEncoding;
  speakingRate : option float;
  pitch : option float;
  volumeGainDb : option float
}.

(** The request handed to [ttsClient.synthesizeSpeech], lines 163-175. *)
Inductive SynthesisInput :=
  | ssml (markup : jsstring)      (* [{ ssml: ... }] *)
  | text_ (plain : jsstring).     (* [{ text: ... }] *)

Record VoiceSelection := {
  sel_name : jsstring;
  sel_languageCode : option jsstring
}.

(** A prosody field that is [None] is absent from the object. *)
Record AudioConfig := {
  cfg_audioEncoding : AudioEncoding;
  cfg_speakingRate : option float;
  cfg_pitch : option float;
  cfg_volumeGainDb : option float
}.

Record SynthesisRequest := {
  input : SynthesisInput;
  voice : VoiceSelection;
  audioConfig : AudioConfig
}.

(** *** Responses *)

(** One issue of a ZodError: the path of the field that failed. *)
Definition ZodIssue : Type := list jsstring.

Inductive Details :=
  | IssueList (errors : list ZodIssue)
  | Message (msg : jsstring).

Record AudioJson := {
  base64 : jsstring;
  mimeType : jsstring;
  encoding : AudioEncoding
}.

Record BillingEstimate := {
  currency : jsstring;
  estimatedCostUsd : float;
  per1MCharactersUsd : PropertyValue
}.

(** The success body of POST /api/synthesize, lines 199-229.  The
    [metrics.server] timings, read off the process clock, are left out. *)
Record SynthesisResult := {
  audio : AudioJson;
  res_voice : Voice;
  charCount : nat;
  res_inputType : InputType;
  billingEstimate : BillingEstimate;
  warnings : list jsstring
}.

(** The success body of GET /api/voices, lines 92-101. *)
Record VoicesListing := {
  list_voices : list Voice;
  languages : list jsstring;
  voiceTypes : list VoiceType;
  ttlSec : Z;
  cachedAt : option Z;          (* the instant, before its ISO rendering *)
  count : nat
}.

Inductive ResponseBody :=
  | ErrorJson (error : jsstring) (details : option Details)
  | SynthesisJson (r : SynthesisResult)
  | VoicesJson (l : VoicesListing).

Record Response := {
  status : Z;
  body : ResponseBody
}.

(* ================================================================= *)
(** ** Effects: the clock, the remote service, the shared cache *)

Inductive Outcome (E A : Type) :=
  | Returned (a : A)
  | Thrown (e : E).
Arguments Returned {E A} a.
Arguments Thrown {E A} e.

(** An [Error] thrown by the remote client. *)
Record JsError := { message : jsstring }.

(** What one handler invocation sees of the outside. *)
Record World := {
  Date_now : Z;                                   (* milliseconds *)
  VOICES_CACHE_TTL_SEC : Z;
  listVoices : Outcome JsError (option (list RawVoice));     (* [resp.voices] *)
  synthesizeSpeech : SynthesisRequest -> Outcome JsError (option (list byte))
                                                  (* [response.audioContent] *)
}.

Inductive RemoteCall :=
  | ListVoicesCall
  | SynthesizeSpeechCall (request : SynthesisRequest).

(** The process state: the cache variable and, for observation, the
    remote calls made so far (oldest first). *)
Record Store := {
  voicesCache : VoicesCache;
  remoteCalls : list RemoteCall
}.

Definition initialStore : Store :=
  {| voicesCache := {| atMs := 0; voices := [] |}; remoteCalls := [] |}.

Module Eff.

Definition M (E A : Type) : Type := World -> Store -> Outcome E A * Store.

Definition ret {E A} (a : A) : M E A := fun _ st => (Returned a, st).

Definition throw {E A} (e : E) : M E A := fun _ st => (Thrown e, st).

Definition bind {E A B} (m : M E A) (k : A -> M E B) : M E B :=
  fun w st =>
    match m w st with
    | (Returned a, st') => k a w st'
    | (Thrown e, st') => (Thrown e, st')
    end.

(** Run [m] where the exceptions are of the wider class [E']. *)
Definition widen {E E' A} (f : E -> E') (m : M E A) : M E' A :=
  fun w st =>
    match m w st with
    | (Returned a, st') => (Returned a, st')
    | (Thrown e, st') => (Thrown (f e), st')
    end.

(** [try { m } catch (e) { h e }] *)
Definition try_catch {E A} (m : M E A) (h : E -> A) : World -> Store -> A * Store :=
  fun w st =>
    match m w st with
    | (Returned a, st') => (a, st')
    | (Thrown e, st') => (h e, st')
    end.

Definition now {E} : M E Z := fun w st => (Returned (Date_now w), st).

Definition ttl {E} : M E Z := fun w st => (Returned (VOICES_CACHE_TTL_SEC w), st).

Definition readCache {E} : M E VoicesCache :=
  fun _ st => (Returned (voicesCache st), st).

Definition writeCache {E} (c : VoicesCache) : M E unit :=
  fun _ st => (Returned tt, {| voicesCache := c; remoteCalls := remoteCalls st |}).

Definition logged (c : RemoteCall) (st : Store) : Store :=
  {| voicesCache := voicesCache st; remoteCalls := remoteCalls st ++ [c] |}.

(** [await ttsClient.listVoices({})] *)
Definition callListVoices : M JsError (option (list RawVoice)) :=
  fun w st => (listVoices w, logged ListVoicesCall st).

(** [await ttsClient.synthesizeSpeech(request)] *)
Definition callSynthesizeSpeech (request : SynthesisRequest)
  : M JsError (option (list byte)) :=
  fun w st => (synthesizeSpeech w request, logged (SynthesizeSpeechCall request) st).

End Eff.

Notation "x <- m ;; k" := (Eff.bind m (fun x => k))
  (at level 61, m at next level, right associativity).

(* ================================================================= *)
(** ** Voice directory cache *)

(** The mapping of lines 62-68: [a || b] takes [b] when [a] is absent,
    the empty string or zero. *)
Definition toVoice (v : RawVoice) : Voice :=
  {| name := raw_name v;
     languageCodes :=
       match raw_languageCodes v with Some l => l | None => [] end;
     ssmlGender :=
       match raw_ssmlGender v with
       | Some g => if JsString.truthy g then g
                   else js "SSML_VOICE_GENDER_UNSPECIFIED"
       | None => js "SSML_VOICE_GENDER_UNSPECIFIED"
       end;
     naturalSampleRateHertz :=
       match raw_naturalSampleRateHertz v with
       | Some r => if (r =? 0)%Z then None else Some r
       | None => None
       end;
     (* the parameter default: [voiceTypeFromName(undefined)] reads [""] *)
     voiceType :=
       voiceTypeFromName (match raw_name v with Some n => n | None => [] end) |}.

(** The test of line 58. *)
Definition cacheIsValid (cache : VoicesCache) (now ttlSec : Z) : bool :=
  negb (List.length (voices cache) =? 0)%nat && (now - atMs cache <? ttlSec * 1000)%Z.

(** index.js, lines 56-71. *)
Definition listVoicesCached : Eff.M JsError (list Voice) :=
  now <- Eff.now ;;
  cache <- Eff.readCache ;;
  ttlSec <- Eff.ttl ;;
  if cacheIsValid cache now ttlSec then Eff.ret (voices cache)
  else
    resp <- Eff.callListVoices ;;
    let voices := map toVoice (match resp with Some l => l | None => [] end) in
    _ <- Eff.writeCache {| atMs := now; voices := voices |} ;;
    Eff.ret voices.

(** [Array.from(new Set(xs))]: the first occurrence of each element. *)
Fixpoint distinct {A} (eqb : A -> A -> bool) (xs : list A) : list A :=
  match xs with
  | [] => []
  | x :: rest => x :: filter (fun y => negb (eqb x y)) (distinct eqb rest)
  end.

Fixpoint insertSorted {A} (ltb : A -> A -> bool) (x : A) (xs : list A) : list A :=
  match xs with
  | [] => [x]
  | y :: rest => if ltb y x then y :: insertSorted ltb x rest else x :: y :: rest
  end.

(** [xs.sort()] on distinct strings. *)
Definition sort {A} (ltb : A -> A -> bool) (xs : list A) : list A :=
  fold_right (insertSorted ltb) [] xs.

(** [String(e?.message || e)] for an [Error]. *)
Definition errorText (e : JsError) : jsstring :=
  if JsString.truthy (message e) then message e else js "Error".

(** GET /api/voices, lines 85-106. *)
Definition getVoicesHandler : World -> Store -> Response * Store :=
  Eff.try_catch
    (voices <- listVoicesCached ;;
     let languages :=
       sort JsString.ltb (distinct JsString.eqb (flat_map languageCodes voices)) in
     let voiceTypes :=
       sort (fun a b => JsString.ltb (tierKey a) (tierKey b))
            (distinct VoiceType_eqb (map voiceType voices)) in
     ttlSec <- Eff.ttl ;;
     cache <- Eff.readCache ;;
     Eff.ret
       {| status := 200;
          body := VoicesJson
            {| list_voices := voices;
               languages := languages;
               voiceTypes := voiceTypes;
               ttlSec := ttlSec;
               cachedAt := if (atMs cache =? 0)%Z then None else Some (atMs cache);
               count := List.length voices |} |})
    (fun e =>
       {| status := 500;
          body := ErrorJson (js "Failed to list voices") (Some (Message (errorText e))) |}).

(* ================================================================= *)
(** ** Request validation *)

#[local] Set Warnings "-register-all".

(** A parsed JSON document, the [req.body] of a request. *)
Inductive json :=
  | JNull
  | JBool (b : bool)
  | JNumber (x : float)
  | JString (s : jsstring)
  | JArray (items : list json)
  | JObject (members : list (jsstring * json)).

(** [o[k]] on a parsed body: [None] is [undefined]. *)
Fixpoint getMember (members : list (jsstring * json)) (k : jsstring) : option json :=
  match members with
  | [] => None
  | (k', v) :: rest => if JsString.eqb k' k then Some v else getMember rest k
  end.

(** Field validators: [None] is an issue for the field. *)

(** [z.enum(["text", "ssml"]).default("text")] *)
Definition parseInputType (v : option json) : option InputType :=
  match v with
  | None => Some text_input
  | Some (JString s) =>
      if JsString.eqb s (js "text") then Some text_input
      else if JsString.eqb s (js "ssml") then Some ssml_input
      else None
  | Some _ => None
  end.

(** [z.enum(["MP3", "OGG_OPUS", "LINEAR16", "MULAW"]).default("MP3")] *)
Definition parseAudioEncoding (v : option json) : option AudioEncoding :=
  match v with
  | None => Some MP3
  | Some (JString s) =>
      if JsString.eqb s (js "MP3") then Some MP3
      else if JsString.eqb s (js "OGG_OPUS") then Some OGG_OPUS
      else if JsString.eqb s (js "LINEAR16") then Some LINEAR16
      else if JsString.eqb s (js "MULAW") then Some MULAW
      else None
  | Some _ => None
  end.

(** [z.string().min(lo).max(hi)] *)
Definition parseString (lo : nat) (hi : option nat) (v : option json) : option jsstring :=
  match v with
  | Some (JString s) =>
      if (lo <=? List.length s)%nat
         && match hi with Some h => (List.length s <=? h)%nat | None => true end
      then Some s else None
  | _ => None
  end.

(** [z.string().optional()] *)
Definition parseOptionalString (v : option json) : option (option jsstring) :=
  match v with
  | None => Some None
  | Some (JString s) => Some (Some s)
  | Some _ => None
  end.

(** [z.number().min(lo).max(hi).optional()]; NaN is not a number for zod,
    and fails both comparisons. *)
Definition parseOptionalNumber (lo hi : float) (v : option json) : option (option float) :=
  match v with
  | None => Some None
  | Some (JNumber x) =>
      if (lo <=? x)%float && (x <=? hi)%float then Some (Some x) else None
  | Some _ => None
  end.

Definition issueAt {A} (path : string) (r : option A) : list ZodIssue :=
  match r with
  | Some _ => []
  | None => [[js path]]
  end.

(** [SynthesizeSchema.parse(req.body)], lines 108-118 and 125: every
    field is validated and the issues of all of them are thrown together. *)
Definition SynthesizeSchema_parse (body : json) : Outcome (list ZodIssue) Parsed :=
  match body with
  | JObject o =>
      let f_inputType := parseInputType (getMember o (js "inputType")) in
      let f_text := parseString 1 (Some 4000%nat) (getMember o (js "text")) in
      let f_voiceName := parseString 1 None (getMember o (js "voiceName")) in
      let f_languageCode := parseOptionalString (getMember o (js "languageCode")) in
      let f_audioEncoding := parseAudioEncoding (getMember o (js "audioEncoding")) in
      let f_speakingRate :=
        parseOptionalNumber 0.25 4.0 (getMember o (js "speakingRate")) in
      let f_pitch := parseOptionalNumber (-20) 20 (getMember o (js "pitch")) in
      let f_volumeGainDb :=
        parseOptionalNumber (-96.0) 16.0 (getMember o (js "volumeGainDb")) in
      match f_inputType, f_text, f_voiceName, f_languageCode,
            f_audioEncoding, f_speakingRate, f_pitch, f_volumeGainDb with
      | Some it, Some tx, Some vn, Some lc, Some ae, Some sr, Some pi, Some vg =>
          Returned {| inputType := it; text := tx; voiceName := vn;
                      languageCode := lc; audioEncoding := ae;
                      speakingRate := sr; pitch := pi; volumeGainDb := vg |}
      | _, _, _, _, _, _, _, _ =>
          Thrown (issueAt "inputType" f_inputType ++ issueAt "text" f_text
                  ++ issueAt "voiceName" f_voiceName
                  ++ issueAt "languageCode" f_languageCode
                  ++ issueAt "audioEncoding" f_audioEncoding
                  ++ issueAt "speakingRate" f_speakingRate
                  ++ issueAt "pitch" f_pitch
                  ++ issueAt "volumeGainDb" f_volumeGainDb)
      end
  | _ => Thrown [[]]          (* one issue, at the root *)
  end.

(* ================================================================= *)
(** ** Base64 text of the audio bytes *)

(** The character of the base64 alphabet for a six-bit value. *)
Definition base64Char (i : N) : JsString.code_unit :=
  (if i <? 26 then 65 + i            (* A-Z *)
   else if i <? 52 then 97 + (i - 26)   (* a-z *)
   else if i <? 62 then 48 + (i - 52)   (* 0-9 *)
   else if i =? 62 then 43              (* + *)
   else 47)%N.                          (* / *)

Definition base64Pad : JsString.code_unit := 61%N.     (* = *)

(** [buffer.toString("base64")] *)
Fixpoint toBase64 (bytes : list byte) : jsstring :=
  match bytes with
  | [] => []
  | [a] =>
      let x := Byte.to_N a in
      [ base64Char (N.shiftr x 2);
        base64Char (N.shiftl (N.land x 3) 4);
        base64Pad; base64Pad ]
  | [a; b] =>
      let x := Byte.to_N a in
      let y := Byte.to_N b in
      [ base64Char (N.shiftr x 2);
        base64Char (N.lor (N.shiftl (N.land x 3) 4) (N.shiftr y 4));
        base64Char (N.shiftl (N.land y 15) 2);
        base64Pad ]
  | a :: b :: c :: rest =>
      let x := Byte.to_N a in
      let y := Byte.to_N b in
      let z := Byte.to_N c in
      base64Char (N.shiftr x 2)
      :: base64Char (N.lor (N.shiftl (N.land x 3) 4) (N.shiftr y 4))
      :: base64Char (N.lor (N.shiftl (N.land y 15) 2) (N.shiftr z 6))
      :: base64Char (N.land z 63)
      :: toBase64 rest
  end.

(* ================================================================= *)
(** ** Synthesis request handler *)

(** What the [try] block of the handler can throw. *)
Inductive Exn :=
  | ZodError (errors : list ZodIssue)
  | RemoteError (e : JsError).

Definition warnSsml : jsstring :=
  js "Chirp 3: HD voices do not support SSML. Falling back to plain text.".
Definition warnSpeakingRate : jsstring :=
  js "Chirp 3: HD voices do not support speakingRate. Ignoring.".
Definition warnPitch : jsstring :=
  js "Chirp 3: HD voices do not support pitch. Ignoring.".

(** The values of [inputType], [speakingRate], [pitch] and [warnings]
    after lines 134-158. *)
Record Adjusted := {
  adj_inputType : InputType;
  adj_speakingRate : option float;
  adj_pitch : option float;
  adj_warnings : list jsstring
}.

Definition chirpLimits (parsed : Parsed) (voiceType : VoiceType) : Adjusted :=
  let warnings := [] in
  let inputType := inputType parsed in
  let speakingRate := speakingRate parsed in
  let pitch := pitch parsed in
  if VoiceType_eqb voiceType CHIRP_HD then
    let '(warnings, inputType) :=
      match inputType with
      | ssml_input => (warnings ++ [warnSsml], text_input)
      | text_input => (warnings, inputType)
      end in
    let '(warnings, speakingRate) :=
      match speakingRate with
      | Some _ => (warnings ++ [warnSpeakingRate], None)
      | None => (warnings, speakingRate)
      end in
    let '(warnings, pitch) :=
      match pitch with
      | Some _ => (warnings ++ [warnPitch], None)
      | None => (warnings, pitch)
      end in
    {| adj_inputType := inputType; adj_speakingRate := speakingRate;
       adj_pitch := pitch; adj_warnings := warnings |}
  else
    {| adj_inputType := inputType; adj_speakingRate := speakingRate;
       adj_pitch := pitch; adj_warnings := warnings |}.

(** [a || b] on optional strings: absent and empty both fall through. *)
Definition orElse (a b : option jsstring) : option jsstring :=
  match a with
  | Some s => if JsString.truthy s then Some s else b
  | None => b
  end.

(** The [request] object of lines 163-175. *)
Definition buildRequest (parsed : Parsed) (v : Voice) (adj : Adjusted) : SynthesisRequest :=
  {| input :=
       match adj_inputType adj with
       | ssml_input => ssml (text parsed)
       | text_input => text_ (text parsed)
       end;
     voice :=
       {| sel_name := voiceName parsed;
          sel_languageCode := orElse (languageCode parsed) (hd_error (languageCodes v)) |};
     audioConfig :=
       {| cfg_audioEncoding := audioEncoding parsed;
          cfg_speakingRate := adj_speakingRate adj;
          cfg_pitch := adj_pitch adj;
          cfg_volumeGainDb := volumeGainDb parsed |} |}.

(** Lines 190-197. *)
Definition mimeTypeOf (e : AudioEncoding) : jsstring :=
  match e with
  | MP3 => js "audio/mpeg"
  | OGG_OPUS => js "audio/ogg"
  | LINEAR16 => js "audio/wav"
  | MULAW => js "audio/basic"
  end.

(** [voices.find((v) => v.name === parsed.voiceName)] *)
Definition findVoice (voices : list Voice) (voiceName : jsstring) : option Voice :=
  find (fun v => match name v with
                 | Some n => JsString.eqb n voiceName
                 | None => false
                 end) voices.

(** The [catch] of lines 230-234. *)
Definition badRequest (e : Exn) : Response :=
  let msg :=
    match e with
    | ZodError errors => IssueList errors
    | RemoteError err => Message (errorText err)
    end in
  {| status := 400; body := ErrorJson (js "Bad request") (Some msg) |}.

(** The answer of lines 186-229 once the audio is in hand; [res.json]
    alone answers 200. *)
Definition successResponse (parsed : Parsed) (voice : Voice) (adj : Adjusted)
    (audioContent : jsstring) : Response :=
  let voiceType := voiceType voice in
  let charCount := List.length (text parsed) in
  let estimatedCostUsd :=
    estimateCostUsd (tierKey voiceType) (float_of_nat charCount) in
  {| status := 200;
     body := SynthesisJson
       {| audio := {| base64 := audioContent;
                      mimeType := mimeTypeOf (audioEncoding parsed);
                      encoding := audioEncoding parsed |};
          res_voice := voice;
          charCount := charCount;
          res_inputType := adj_inputType adj;
          billingEstimate :=
            {| currency := js "USD";
               estimatedCostUsd := estimatedCostUsd;
               per1MCharactersUsd :=
                 nullish (getProperty PRICE_PER_1M_USD (tierKey voiceType))
                         (getProperty PRICE_PER_1M_USD (js "OTHER")) |};
          warnings := adj_warnings adj |} |}.

Definition noAudioContent : Response :=
  {| status := 500;
     body := ErrorJson (js "No audioContent returned by Google TTS.") None |}.

Definition unknownVoiceName : Response :=
  {| status := 400;
     body := ErrorJson
       (js "Unknown voiceName. Fetch /api/voices and pick one from the list.")
       None |}.

(** Lines 133-229: the handler once the voice is found. *)
Definition synthesizeWith (parsed : Parsed) (voice : Voice) : Eff.M Exn Response :=
  let adj := chirpLimits parsed (voiceType voice) in
  let request := buildRequest parsed voice adj in
  response <- Eff.widen RemoteError (Eff.callSynthesizeSpeech request) ;;
  (* [response.audioContent?.toString("base64") ?? ""] *)
  let audioContent :=
    match response with
    | Some bytes => toBase64 bytes
    | None => []
    end in
  if negb (JsString.truthy audioContent) then Eff.ret noAudioContent
  else Eff.ret (successResponse parsed voice adj audioContent).

(** [SynthesizeSchema.parse] inside the [try]. *)
Definition parseBody (reqBody : json) : Eff.M Exn Parsed :=
  match SynthesizeSchema_parse reqBody with
  | Returned parsed => Eff.ret parsed
  | Thrown errors => Eff.throw (ZodError errors)
  end.

(** POST /api/synthesize, lines 120-235. *)
Definition synthesizeHandler (reqBody : json) : World -> Store -> Response * Store :=
  Eff.try_catch
    (parsed <- parseBody reqBody ;;
     voices <- Eff.widen RemoteError listVoicesCached ;;
     match findVoice voices (voiceName parsed) with
     | None => Eff.ret unknownVoiceName
     | Some voice => synthesizeWith parsed voice
     end)
    badRequest.

(* ================================================================= *)
(** ** Observations on a run *)

(** The synthesis calls of a log. *)
Definition synthesisCalls (log : list RemoteCall) : list SynthesisRequest :=
  flat_map (fun c => match c with
                     | SynthesizeSpeechCall r => [r]
                     | ListVoicesCall => []
                     end) log.

(** The voice-listing calls of a log. *)
Definition listingCalls (log : list RemoteCall) : nat :=
  List.length (filter (fun c => match c with
                                | ListVoicesCall => true
                                | SynthesizeSpeechCall _ => false
                                end) log).

(** The request the handler forwards for a found voice. *)
Definition forwardedRequest (parsed : Parsed) (v : Voice) : SynthesisRequest :=
  buildRequest parsed v (chirpLimits parsed (voiceType v)).

(** The answer once the voice is found, by what the remote call gives. *)
Definition answerTo (parsed : Parsed) (v : Voice)
    (remote : Outcome JsError (option (list byte))) : Response :=
  match remote with
  | Thrown e => badRequest (RemoteError e)
  | Returned None | Returned (Some []) => noAudioContent
  | Returned (Some bytes) =>
      successResponse parsed v (chirpLimits parsed (voiceType v)) (toBase64 bytes)
  end.

(* ================================================================= *)
(** ** A sample deployment, for the examples below *)

Module Sample.

Definition standardA : RawVoice :=
  {| raw_name := Some (js "en-US-Standard-A");
     raw_languageCodes := Some [js "en-US"];
     raw_ssmlGender := Some (js "FEMALE");
     raw_naturalSampleRateHertz := Some 24000%Z |}.

Definition chirpAchernar : RawVoice :=
  {| raw_name := Some (js "en-US-Chirp3-HD-Achernar");
     raw_languageCodes := Some [js "en-US"];
     raw_ssmlGender := Some (js "FEMALE");
     raw_naturalSampleRateHertz := Some 24000%Z |}.

Definition audioBytes : list byte := list_byte_of_string "ID3".

(** The service lists both voices and synthesizes three bytes. *)
Definition healthy (now : Z) : World :=
  {| Date_now := now;
     VOICES_CACHE_TTL_SEC := 3600;
     listVoices := Returned (Some [standardA; chirpAchernar]);
     synthesizeSpeech := fun _ => Returned (Some audioBytes) |}.

(** The service lists no voice. *)
Definition noVoices (now : Z) : World :=
  {| Date_now := now;
     VOICES_CACHE_TTL_SEC := 3600;
     listVoices := Returned (Some []);
     synthesizeSpeech := fun _ => Returned (Some audioBytes) |}.

Definition unavailable : JsError := {| message := js "14 UNAVAILABLE" |}.

(** Listing works, synthesis fails. *)
Definition synthesisDown (now : Z) : World :=
  {| Date_now := now;
     VOICES_CACHE_TTL_SEC := 3600;
     listVoices := Returned (Some [standardA; chirpAchernar]);
     synthesizeSpeech := fun _ => Thrown unavailable |}.

(** Nothing works. *)
Definition down (now : Z) : World :=
  {| Date_now := now;
     VOICES_CACHE_TTL_SEC := 3600;
     listVoices := Thrown unavailable;
     synthesizeSpeech := fun _ => Thrown unavailable |}.

(** Synthesis answers without audio. *)
Definition silent (now : Z) : World :=
  {| Date_now := now;
     VOICES_CACHE_TTL_SEC := 3600;
     listVoices := Returned (Some [standardA; chirpAchernar]);
     synthesizeSpeech := fun _ => Returned (Some []) |}.

(** A store whose cache was filled at [t] with both voices. *)
Definition filledAt (t : Z) : Store :=
  {| voicesCache := {| atMs := t; voices := map toVoice [standardA; chirpAchernar] |};
     remoteCalls := [] |}.

Definition helloBody : json :=
  JObject [ (js "inputType", JString (js "text"));
            (js "text", JString (js "Hello"));
            (js "voiceName", JString (js "en-US-Standard-A"));
            (js "audioEncoding", JString (js "MP3")) ].

Definition helloParsed : Parsed :=
  {| inputType := text_input; text := js "Hello";
     voiceName := js "en-US-Standard-A"; languageCode := None;
     audioEncoding := MP3; speakingRate := None; pitch := None;
     volumeGainDb := None |}.

Definition chirpSsmlBody : json :=
  JObject [ (js "inputType", JString (js "ssml"));
            (js "text", JString (js "<speak>Hi</speak>"));
            (js "voiceName", JString (js "en-US-Chirp3-HD-Achernar"));
            (js "speakingRate", JNumber 1.5);
            (js "pitch", JNumber (-2)) ].

Definition chirpSsmlParsed : Parsed :=
  {| inputType := ssml_input; text := js "<speak>Hi</speak>";
     voiceName := js "en-US-Chirp3-HD-Achernar"; languageCode := None;
     audioEncoding := MP3; speakingRate := Some 1.5%float;
     pitch := Some (-2)%float; volumeGainDb := None |}.

Definition strangerBody : json :=
  JObject [ (js "text", JString (js "Hello"));
            (js "voiceName", JString (js "xx-XX-Nobody-Z")) ].

Definition strangerParsed : Parsed :=
  {| inputType := text_input; text := js "Hello";
     voiceName := js "xx-XX-Nobody-Z"; languageCode := None;
     audioEncoding := MP3; speakingRate := None; pitch := None;
     volumeGainDb := None |}.

End Sample.

(* ================================================================= *)
(** ** The server as a whole *)

(** The two routes that touch the store. *)
Inductive HttpRequest :=
  | GET_voices
  | POST_synthesize (reqBody : json).

Definition serve (r : HttpRequest) : World -> Store -> Response * Store :=
  match r with
  | GET_voices => getVoicesHandler
  | POST_synthesize reqBody => synthesizeHandler reqBody
  end.

(** Requests served one after the other, each in the world of its time;
    the store after the last. *)
Fixpoint serveAll (rs : list (HttpRequest * World)) (st : Store) : Store :=
  match rs with
  | [] => st
  | (r, w) :: rest => serveAll rest (snd (serve r w st))
  end.

(** A voice as lines 62-68 build it: the tier is the one of its name, the
    gender is never empty, the sample rate is never zero. *)
Definition derivedVoice (v : Voice) : Prop :=
  voiceType v = voiceTypeFromName (match name v with Some n => n | None => [] end)
  /\ JsString.truthy (ssmlGender v) = true
  /\ naturalSampleRateHertz v <> Some 0%Z.

(** An optional number within the bounds [SynthesizeSchema] puts on it. *)
Definition withinRange (lo hi : float) (x : option float) : Prop :=
  match x with
  | Some x => (lo <=? x)%float = true /\ (x <=? hi)%float = true
  | None => True
  end.

Definition inputText (i : SynthesisInput) : jsstring :=
  match i with
  | ssml s => s
  | text_ s => s
  end.

(** A remote request within the limits of [SynthesizeSchema]. *)
Definition validatedRequest (request : SynthesisRequest) : Prop :=
  (1 <= List.length (inputText (input request)) <= 4000)%nat
  /\ sel_name (voice request) <> []
  /\ withinRange 0.25 4.0 (cfg_speakingRate (audioConfig request))
  /\ withinRange (-20) 20 (cfg_pitch (audioConfig request))
  /\ withinRange (-96.0) 16.0 (cfg_volumeGainDb (audioConfig request)).

(* ================================================================= *)
(** ** Client console

    The pure parts of client/src/App.jsx (lines 240-623 of the source
    file).  The state of the component is a set of separate variables, so
    each function takes the ones it reads.  A voice of the client is a
    record of the list GET /api/voices answered, its tier being the string
    [tierKey] of the server's. *)

Module Client.

(** [voiceTypePretty(t)], lines 242-250; [None] is [undefined]. *)
Definition voiceTypePretty (t : option jsstring) : jsstring :=
  match t with
  | Some s =>
      if JsString.eqb s (js "CHIRP_HD") then js "Chirp 3: HD"
      else if JsString.eqb s (js "WAVENET") then js "WaveNet"
      else if JsString.eqb s (js "NEURAL2") then js "Neural2"
      else if JsString.eqb s (js "STUDIO") then js "Studio"
      else if JsString.eqb s (js "STANDARD") then js "Standard"
      else if JsString.eqb s (js "POLYGLOT") then js "Polyglot"
      else if JsString.truthy s then s       (* [t || "Other"] *)
      else js "Other"
  | None => js "Other"
  end.

(** The code units [String.prototype.trim] removes: WhiteSpace and
    LineTerminator of ECMAScript. *)
Definition isTrimmed (c : JsString.code_unit) : bool :=
  ((9 <=? c) && (c <=? 13)            (* TAB, LF, VT, FF, CR *)
   || (c =? 32) || (c =? 160)         (* SP, NBSP *)
   || (c =? 5760)                     (* U+1680 *)
   || (8192 <=? c) && (c <=? 8202)    (* U+2000 .. U+200A *)
   || (c =? 8232) || (c =? 8233)      (* LS, PS *)
   || (c =? 8239) || (c =? 8287)      (* U+202F, U+205F *)
   || (c =? 12288) || (c =? 65279))%N. (* U+3000, U+FEFF *)

Fixpoint trimStart (s : jsstring) : jsstring :=
  match s with
  | [] => []
  | c :: rest => if isTrimmed c then trimStart rest else s
  end.

Definition trimEnd (s : jsstring) : jsstring := rev (trimStart (rev s)).

(** [s.trim()] *)
Definition trim (s : jsstring) : jsstring := trimEnd (trimStart s).

(** [isChirp], line 285. *)
Definition isChirp (voiceType : jsstring) : bool :=
  JsString.eqb voiceType (js "CHIRP_HD").

(** [canGenerate], lines 335-337, as the condition it is used for. *)
Definition canGenerate (loading : bool) (text voiceName : jsstring) : bool :=
  negb loading && JsString.truthy (trim text) && JsString.truthy voiceName.

(** A number as it reaches the server through [JSON.stringify] and the
    JSON body parser: NaN and the infinities become [null], minus zero
    becomes zero, every other number is itself. *)
Definition jsonNumber (x : float) : json :=
  if PrimFloat.is_nan x || PrimFloat.is_infinity x then JNull
  else if PrimFloat.is_zero x then JNumber 0
  else JNumber x.

(** The body [generate] posts, lines 360-367, as the server receives it;
    [speakingRate] and [pitch] are the numbers [Number(...)] read from the
    two fields. *)
Definition payload (inputType text voiceName language audioEncoding voiceType : jsstring)
    (speakingRate pitch : float) : json :=
  JObject
    ([ (js "inputType", JString inputType);
       (js "text", JString (trim text));
       (js "voiceName", JString voiceName);
       (js "languageCode", JString language);
       (js "audioEncoding", JString audioEncoding) ]
     ++ if isChirp voiceType then []
        else [ (js "speakingRate", jsonNumber speakingRate);
               (js "pitch", jsonNumber pitch) ]).

(** [setHistory((h) => [entry, ...h].slice(0, 20))], line 393. *)
Definition pushHistory {Entry : Type} (entry : Entry) (h : list Entry) : list Entry :=
  firstn 20 (entry :: h).

(** The history after the entries [es] were generated in that order. *)
Definition historyAfter {Entry : Type} (es : list Entry) : list Entry :=
  fold_left (fun h entry => pushHistory entry h) es [].

Section Voices.

(** [a.localeCompare(b) < 0] on two names: the collation of the browser.
    (A voice without a name makes [localeCompare] throw; the voices of a
    listing have one.) *)
Variable sortsBefore : option jsstring -> option jsstring -> bool.

(** [filteredVoices], lines 312-317; [voiceType'] is the state variable
    [voiceType]. *)
Definition filteredVoices (voices : list Voice) (language voiceType' : jsstring)
  : list Voice :=
  sort (fun a b => sortsBefore (name a) (name b))
    (filter (fun v => if JsString.truthy voiceType'
                      then JsString.eqb (tierKey (voiceType v)) voiceType'
                      else true)
       (filter (fun v => if JsString.truthy language
                         then existsb (JsString.eqb language) (languageCodes v)
                         else true)
          voices)).

End Voices.

(** [a === b] on names that may be [undefined]. *)
Definition sameName (a b : option jsstring) : bool :=
  match a, b with
  | Some x, Some y => JsString.eqb x y
  | None, None => true
  | _, _ => false
  end.

(** The effect of lines 319-324: the voice name once it has run. *)
Definition pickVoice (filteredVoices : list Voice) (voiceName : option jsstring)
  : option jsstring :=
  match filteredVoices with
  | [] => voiceName
  | first :: _ =>
      if existsb (fun v => sameName (name v) voiceName) filteredVoices
      then voiceName
      else name first
  end.

(** The tier the console starts on, lines 299-301, from the [voices] and
    [voiceTypes] of the listing. *)
Definition defaultVoiceType (voices : list Voice) (voiceTypes : list jsstring)
  : jsstring :=
  let hasChirp :=
    existsb (fun v => JsString.eqb (tierKey (voiceType v)) (js "CHIRP_HD")) voices in
  let defaultType :=
    if hasChirp then Some (js "CHIRP_HD")
    else if existsb (JsString.eqb (js "NEURAL2")) voiceTypes then Some (js "NEURAL2")
    else hd_error voiceTypes in
  match defaultType with
  | Some t => if JsString.truthy t then t else js "NEURAL2"
  | None => js "NEURAL2"
  end.

(** The language the console starts on, lines 304-305. *)
Definition defaultLanguage (languages : list jsstring) : jsstring :=
  let defaultLang :=
    if existsb (JsString.eqb (js "en-US")) languages then Some (js "en-US")
    else hd_error languages in
  match defaultLang with
  | Some l => if JsString.truthy l then l else js "en-US"
  | None => js "en-US"
  end.

End Client.

(* ================================================================= *)
(** * Properties *)

Ltac run_eff :=
  unfold Eff.try_catch, Eff.widen, Eff.bind, Eff.ret, Eff.throw, Eff.now,
    Eff.ttl, Eff.readCache, Eff.writeCache, Eff.callListVoices,
    Eff.callSynthesizeSpeech; cbv beta.

(** ** Strings *)

Lemma JsString_eqb_eq (a b : jsstring) : JsString.eqb a b = true <-> a = b.
Proof.
  revert b; induction a as [|x a IH]; intros [|y b]; simpl; split;
    try congruence; try reflexivity.
  - intros H. apply andb_true_iff in H as [Hx Hab].
    apply N.eqb_eq in Hx. apply IH in Hab. congruence.
  - intros H. injection H as -> ->.
    rewrite N.eqb_refl. simpl. now apply IH.
Qed.

Lemma JsString_eqb_refl (a : jsstring) : JsString.eqb a a = true.
Proof. now apply JsString_eqb_eq. Qed.

Lemma startsWith_spec (pat s : jsstring) :
  JsString.startsWith pat s = true <-> exists after, s = pat ++ after.
Proof.
  revert s; induction pat as [|p pat IH]; intros s; simpl.
  - split; [intros _; now exists s | reflexivity].
  - destruct s as [|c s].
    + split; [discriminate | intros [after H]; discriminate].
    + rewrite andb_true_iff, N.eqb_eq, IH. split.
      * intros [-> [after ->]]. now exists after.
      * intros [after H]. injection H as -> ->. split; [reflexivity | now exists after].
Qed.

Lemma includes_spec (s pat : jsstring) :
  JsString.includes s pat = true <-> JsString.occurs_in pat s.
Proof.
  unfold JsString.occurs_in.
  induction s as [|c s IH].
  - simpl. rewrite orb_false_r, startsWith_spec. split.
    + intros [after H]. now exists [], after.
    + intros [before [after H]].
      destruct before as [|b before]; [now exists after | discriminate].
  - cbn [JsString.includes]. rewrite orb_true_iff, startsWith_spec, IH. split.
    + intros [[after H] | [before [after H]]].
      * now exists [], after.
      * exists (c :: before), after. simpl. now rewrite H.
    + intros [before [after H]]. destruct before as [|b before].
      * left. now exists after.
      * right. injection H as _ H. now exists before, after.
Qed.

Lemma includes_false (s pat : jsstring) :
  ~ JsString.occurs_in pat s -> JsString.includes s pat = false.
Proof.
  intros H. destruct (JsString.includes s pat) eqn:E; [|reflexivity].
  now apply includes_spec in E.
Qed.

(** ** Tier classification *)

Lemma voiceTypeFromName_first_match (n : jsstring) :
  voiceTypeFromName n = classifyByFirstMatch n.
Proof.
  unfold voiceTypeFromName, classifyByFirstMatch, tierPatterns, rowMatches.
  cbn [find existsb fst snd].
  repeat match goal with
         | |- context [JsString.includes n ?p] =>
             destruct (JsString.includes n p); cbn [orb find existsb fst snd];
             try reflexivity
         end.
Qed.

(** C5: [voiceTypeFromName] tries the Studio, Neural2, Wavenet, Standard,
    Chirp and Polyglot patterns in that order and returns the tier of the
    first row with a pattern occurring in the identifier; whatever
    contains [-Studio-] is STUDIO; whatever contains none of the patterns
    is OTHER. *)
Theorem voiceTypeFromName_ordered_patterns :
  map snd tierPatterns = [STUDIO; NEURAL2; WAVENET; STANDARD; CHIRP_HD; POLYGLOT]
  /\ (forall n, voiceTypeFromName n
                = match find (rowMatches n) tierPatterns with
                  | Some row => snd row
                  | None => OTHER
                  end)
  /\ (forall n, JsString.occurs_in (js "-Studio-") n -> voiceTypeFromName n = STUDIO)
  /\ (forall n,
        (forall row pat, In row tierPatterns -> In pat (fst row) ->
                         ~ JsString.occurs_in pat n) ->
        voiceTypeFromName n = OTHER).
Proof.
  split; [reflexivity|].
  split; [exact voiceTypeFromName_first_match|].
  split.
  - intros n H. apply includes_spec in H.
    unfold voiceTypeFromName. now rewrite H.
  - intros n H. rewrite voiceTypeFromName_first_match.
    unfold classifyByFirstMatch.
    destruct (find (rowMatches n) tierPatterns) as [row|] eqn:E; [|reflexivity].
    apply find_some in E as [Hin Hm].
    unfold rowMatches in Hm. apply existsb_exists in Hm as [pat [Hpat Hinc]].
    apply includes_spec in Hinc. now destruct (H row pat Hin Hpat).
Qed.

Lemma voiceTypeFromName_ordered_patterns_witness :
  voiceTypeFromName (js "en-US-Studio-O") = STUDIO.
Proof.
  apply (proj1 (proj2 (proj2 voiceTypeFromName_ordered_patterns))).
  exists (js "en-US"), (js "O"). reflexivity.
Defined.

(** The order decides when two patterns occur. *)
Example voiceTypeFromName_studio_before_neural2 :
  voiceTypeFromName (js "x-Neural2--Studio-y") = STUDIO.
Proof. reflexivity. Qed.

(** ** Pricing estimator *)






(** A name found on [Object.prototype] is not undefined for [??]: the
    division then yields NaN.  The handler never passes such a key, the
    tier being one [voiceTypeFromName] returned. *)
Example estimateCostUsd_inherited_key :
  estimateCostUsd (js "constructor") 5 = nan.
Proof. reflexivity. Qed.

(** ** Voice directory cache *)

Lemma cacheIsValid_true (cache : VoicesCache) (now ttlSec : Z) :
  cacheIsValid cache now ttlSec = true
  <-> voices cache <> [] /\ (now - atMs cache < ttlSec * 1000)%Z.
Proof.
  unfold cacheIsValid. rewrite andb_true_iff, negb_true_iff, Z.ltb_lt.
  destruct (voices cache); simpl; split; intros [H1 H2]; split;
    congruence || assumption.
Qed.

Lemma cacheIsValid_false (cache : VoicesCache) (now ttlSec : Z) :
  cacheIsValid cache now ttlSec = false
  <-> voices cache = [] \/ ~ (now - atMs cache < ttlSec * 1000)%Z.
Proof.
  unfold cacheIsValid. rewrite andb_false_iff, negb_false_iff, Z.ltb_nlt.
  destruct (voices cache); simpl; split; intros [H|H]; auto; discriminate.
Qed.

(** A hit: the cached list, and the store as it was. *)
Lemma listVoicesCached_hit (w : World) (st : Store) :
  cacheIsValid (voicesCache st) (Date_now w) (VOICES_CACHE_TTL_SEC w) = true ->
  listVoicesCached w st = (Returned (voices (voicesCache st)), st).
Proof.
  intros H. unfold listVoicesCached. run_eff. now rewrite H.
Qed.

(** A miss answered by the remote service: the new list is stored with
    the time of the call. *)
Lemma listVoicesCached_refresh (w : World) (st : Store) resp :
  cacheIsValid (voicesCache st) (Date_now w) (VOICES_CACHE_TTL_SEC w) = false ->
  listVoices w = Returned resp ->
  let fetched := map toVoice (match resp with Some l => l | None => [] end) in
  listVoicesCached w st
  = (Returned fetched,
     {| voicesCache := {| atMs := Date_now w; voices := fetched |};
        remoteCalls := remoteCalls st ++ [ListVoicesCall] |}).
Proof.
  intros H Hr. unfold listVoicesCached. run_eff. rewrite H.
  unfold Eff.logged. now rewrite Hr.
Qed.

(** A miss the remote service fails: the error, and only the log grows. *)
Lemma listVoicesCached_failure (w : World) (st : Store) (e : JsError) :
  cacheIsValid (voicesCache st) (Date_now w) (VOICES_CACHE_TTL_SEC w) = false ->
  listVoices w = Thrown e ->
  listVoicesCached w st = (Thrown e, Eff.logged ListVoicesCall st).
Proof.
  intros H Hr. unfold listVoicesCached. run_eff. rewrite H. now rewrite Hr.
Qed.

Lemma listVoicesCached_log (w : World) (st : Store) :
  remoteCalls (snd (listVoicesCached w st)) = remoteCalls st
  \/ remoteCalls (snd (listVoicesCached w st)) = remoteCalls st ++ [ListVoicesCall].
Proof.
  destruct (cacheIsValid (voicesCache st) (Date_now w) (VOICES_CACHE_TTL_SEC w)) eqn:E.
  - left. now rewrite listVoicesCached_hit.
  - right. destruct (listVoices w) as [resp|e] eqn:Hr.
    + now rewrite (listVoicesCached_refresh _ _ E Hr).
    + now rewrite (listVoicesCached_failure _ _ E Hr).
Qed.

Lemma listVoicesCached_no_synthesis (w : World) (st : Store) :
  synthesisCalls (remoteCalls (snd (listVoicesCached w st)))
  = synthesisCalls (remoteCalls st).
Proof.
  destruct (listVoicesCached_log w st) as [-> | ->]; [reflexivity|].
  unfold synthesisCalls. rewrite flat_map_app. simpl. now rewrite app_nil_r.
Qed.

(** C3, as the code has it: when the cache holds a non-empty voice list
    fetched at [atMs] and [now - atMs < TTL], [listVoicesCached] returns
    the cached list, calls nothing remote and leaves the store as it was. *)
Theorem listVoicesCached_fresh_nonempty (w : World) (st : Store) :
  voices (voicesCache st) <> [] ->
  (Date_now w - atMs (voicesCache st) < VOICES_CACHE_TTL_SEC w * 1000)%Z ->
  fst (listVoicesCached w st) = Returned (voices (voicesCache st))
  /\ snd (listVoicesCached w st) = st
  /\ listingCalls (remoteCalls (snd (listVoicesCached w st)))
     = listingCalls (remoteCalls st).
Proof.
  intros Hne Hfresh.
  rewrite listVoicesCached_hit by (apply cacheIsValid_true; auto).
  auto.
Qed.

Lemma listVoicesCached_fresh_nonempty_witness :
  fst (listVoicesCached (Sample.down 2000) (Sample.filledAt 1000))
  = Returned (map toVoice [Sample.standardA; Sample.chirpAchernar]).
Proof.
  apply (listVoicesCached_fresh_nonempty (Sample.down 2000) (Sample.filledAt 1000)).
  - discriminate.
  - reflexivity.
Defined.

(** C3 as worded fails: the cache is fetched at t = 1000 ms and the
    service lists no voice; asked again at now = 2000 ms, well inside the
    3600 s window, [listVoicesCached] calls the remote listing a second
    time and returns what it lists now, not the cached (empty) list. *)
Lemma fresh_empty_cache_is_refetched :
  let fetched := snd (listVoicesCached (Sample.noVoices 1000) initialStore) in
  let again := listVoicesCached (Sample.healthy 2000) fetched in
  voicesCache fetched = {| atMs := 1000; voices := [] |}
  /\ listingCalls (remoteCalls fetched) = 1%nat
  /\ (Date_now (Sample.healthy 2000) - atMs (voicesCache fetched)
      < VOICES_CACHE_TTL_SEC (Sample.healthy 2000) * 1000)%Z
  /\ fst again <> Returned (voices (voicesCache fetched))
  /\ listingCalls (remoteCalls (snd again)) = 2%nat.
Proof.
  cbv zeta. split; [reflexivity|]. split; [reflexivity|]. split; [reflexivity|].
  split; [|reflexivity]. vm_compute. discriminate.
Qed.

(** The window closes at the TTL: with 3600 s, a list fetched at t = 0
    is served at 3 599 999 ms and fetched again, once, at 3 600 000 ms and
    at 3 601 000 ms. *)
Example cache_expires_at_ttl :
  listingCalls (remoteCalls (snd (listVoicesCached (Sample.healthy 3599999)
                                    (Sample.filledAt 0)))) = 0%nat
  /\ listingCalls (remoteCalls (snd (listVoicesCached (Sample.healthy 3600000)
                                       (Sample.filledAt 0)))) = 1%nat
  /\ listingCalls (remoteCalls (snd (listVoicesCached (Sample.healthy 3601000)
                                       (Sample.filledAt 0)))) = 1%nat.
Proof. repeat split. Qed.

(** C10: a cache holding no voice is never valid: whatever the clock and
    the timestamp, [listVoicesCached] calls the remote listing. *)
Theorem listVoicesCached_empty_cache_fetches (w : World) (st : Store) :
  voices (voicesCache st) = [] ->
  cacheIsValid (voicesCache st) (Date_now w) (VOICES_CACHE_TTL_SEC w) = false
  /\ remoteCalls (snd (listVoicesCached w st)) = remoteCalls st ++ [ListVoicesCall].
Proof.
  intros Hempty.
  assert (E : cacheIsValid (voicesCache st) (Date_now w) (VOICES_CACHE_TTL_SEC w) = false)
    by (apply cacheIsValid_false; auto).
  split; [exact E|].
  destruct (listVoices w) as [resp|e] eqn:Hr.
  - now rewrite (listVoicesCached_refresh _ _ E Hr).
  - now rewrite (listVoicesCached_failure _ _ E Hr).
Qed.

Lemma listVoicesCached_empty_cache_fetches_witness :
  let st := {| voicesCache := {| atMs := 1000; voices := [] |}; remoteCalls := [] |} in
  (2000 - 1000 < VOICES_CACHE_TTL_SEC (Sample.healthy 2000) * 1000)%Z
  /\ remoteCalls (snd (listVoicesCached (Sample.healthy 2000) st)) = [ListVoicesCall].
Proof.
  cbv zeta. split; [reflexivity|].
  apply (listVoicesCached_empty_cache_fetches (Sample.healthy 2000)
           {| voicesCache := {| atMs := 1000; voices := [] |}; remoteCalls := [] |}).
  reflexivity.
Defined.

(** C4: with the cache expired or empty and the remote listing failing,
    [listVoicesCached] throws the remote error instead of returning the
    cached list, the cache keeps its voices and timestamp, and
    GET /api/voices answers 500 with [error] and [details]. *)
Theorem listVoicesCached_fails_closed (w : World) (st : Store) (e : JsError) :
  voices (voicesCache st) = []
  \/ ~ (Date_now w - atMs (voicesCache st) < VOICES_CACHE_TTL_SEC w * 1000)%Z ->
  listVoices w = Thrown e ->
  fst (listVoicesCached w st) = Thrown e
  /\ voicesCache (snd (listVoicesCached w st)) = voicesCache st
  /\ fst (getVoicesHandler w st)
     = {| status := 500;
          body := ErrorJson (js "Failed to list voices")
                            (Some (Message (errorText e))) |}
  /\ voicesCache (snd (getVoicesHandler w st)) = voicesCache st.
Proof.
  intros Hstale Hr. apply cacheIsValid_false in Hstale.
  pose proof (listVoicesCached_failure _ _ Hstale Hr) as H.
  rewrite H. repeat split.
  - unfold getVoicesHandler, Eff.try_catch, Eff.bind. now rewrite H.
  - unfold getVoicesHandler, Eff.try_catch, Eff.bind. now rewrite H.
Qed.

Lemma listVoicesCached_fails_closed_witness :
  fst (listVoicesCached (Sample.down 3601001) (Sample.filledAt 1000))
  = Thrown Sample.unavailable
  /\ voicesCache (snd (listVoicesCached (Sample.down 3601001) (Sample.filledAt 1000)))
     = voicesCache (Sample.filledAt 1000)
  /\ status (fst (getVoicesHandler (Sample.down 3601001) (Sample.filledAt 1000))) = 500%Z.
Proof.
  destruct (listVoicesCached_fails_closed (Sample.down 3601001) (Sample.filledAt 1000)
              (e := Sample.unavailable)) as [H1 [H2 [H3 _]]].
  - right. vm_compute. discriminate.
  - reflexivity.
  - split; [exact H1 | split; [exact H2 | now rewrite H3]].
Defined.

(** ** Validation *)

Lemma parseString_some lo hi v s :
  parseString lo hi v = Some s -> v = Some (JString s).
Proof.
  unfold parseString. destruct v as [[]|]; try discriminate.
  match goal with |- context [if ?c then _ else _] => destruct c end;
    [intros H; injection H as ->; reflexivity | discriminate].
Qed.

(** An accepted body is an object, and the parsed [text] and [voiceName]
    are its members of that name, unchanged. *)
Lemma SynthesizeSchema_parse_returned (reqBody : json) (parsed : Parsed) :
  SynthesizeSchema_parse reqBody = Returned parsed ->
  exists o, reqBody = JObject o
            /\ getMember o (js "text") = Some (JString (text parsed))
            /\ getMember o (js "voiceName") = Some (JString (voiceName parsed)).
Proof.
  destruct reqBody as [| | | | |o]; try discriminate.
  unfold SynthesizeSchema_parse. cbv zeta.
  destruct (parseInputType _); [|discriminate].
  destruct (parseString 1 (Some 4000%nat) _) eqn:Etext; [|discriminate].
  destruct (parseString 1 None _) eqn:Evoice; [|discriminate].
  destruct (parseOptionalString _); [|discriminate].
  destruct (parseAudioEncoding _); [|discriminate].
  destruct (parseOptionalNumber 0.25 4.0 _); [|discriminate].
  destruct (parseOptionalNumber (-20) 20 _); [|discriminate].
  destruct (parseOptionalNumber (-96.0) 16.0 _); [|discriminate].
  intros H. injection H as <-. simpl.
  exists o. apply parseString_some in Etext, Evoice. auto.
Qed.

(** ** Base64 *)

Lemma toBase64_nil (bytes : list byte) : toBase64 bytes = [] <-> bytes = [].
Proof.
  destruct bytes as [|a [|b [|c rest]]]; simpl; split; congruence.
Qed.

Example toBase64_Man :
  toBase64 (list_byte_of_string "Man") = js "TWFu"
  /\ toBase64 (list_byte_of_string "Ma") = js "TWE="
  /\ toBase64 (list_byte_of_string "M") = js "TQ==".
Proof. repeat split. Qed.

Lemma toBase64_truthy (bytes : list byte) :
  JsString.truthy (toBase64 bytes) = match bytes with [] => false | _ :: _ => true end.
Proof. destruct bytes as [|a [|b [|c rest]]]; reflexivity. Qed.

(** ** Synthesis handler: how a request runs *)

Lemma synthesizeHandler_invalid (reqBody : json) (w : World) (st : Store) errors :
  SynthesizeSchema_parse reqBody = Thrown errors ->
  synthesizeHandler reqBody w st = (badRequest (ZodError errors), st).
Proof.
  intros H. unfold synthesizeHandler, parseBody. rewrite H. reflexivity.
Qed.

Lemma synthesizeHandler_listing_failed (reqBody : json) (w : World) (st : Store)
    parsed e st1 :
  SynthesizeSchema_parse reqBody = Returned parsed ->
  listVoicesCached w st = (Thrown e, st1) ->
  synthesizeHandler reqBody w st = (badRequest (RemoteError e), st1).
Proof.
  intros H Hl. unfold synthesizeHandler, parseBody. rewrite H.
  run_eff. now rewrite Hl.
Qed.

Lemma synthesizeHandler_unknown (reqBody : json) (w : World) (st : Store)
    parsed voices st1 :
  SynthesizeSchema_parse reqBody = Returned parsed ->
  listVoicesCached w st = (Returned voices, st1) ->
  findVoice voices (voiceName parsed) = None ->
  synthesizeHandler reqBody w st = (unknownVoiceName, st1).
Proof.
  intros H Hl Hf. unfold synthesizeHandler, parseBody. rewrite H.
  run_eff. rewrite Hl, Hf. reflexivity.
Qed.

Lemma chirpLimits_chirp_ssml (parsed : Parsed) :
  inputType parsed = ssml_input ->
  chirpLimits parsed CHIRP_HD
  = {| adj_inputType := text_input;
       adj_speakingRate := None;
       adj_pitch := None;
       adj_warnings :=
         [warnSsml]
         ++ match speakingRate parsed with
            | Some _ => [warnSpeakingRate]
            | None => []
            end
         ++ match pitch parsed with
            | Some _ => [warnPitch]
            | None => []
            end |}.
Proof.
  intros H. unfold chirpLimits. rewrite H. cbn [VoiceType_eqb].
  destruct (speakingRate parsed), (pitch parsed); reflexivity.
Qed.

(** *** A valid body, a directory, the voice found in it *)

Section VoiceFound.

Variables (reqBody : json) (w : World) (st : Store).
Variables (parsed : Parsed) (voices : list Voice) (st1 : Store) (v : Voice).

Hypothesis Hparse : SynthesizeSchema_parse reqBody = Returned parsed.
Hypothesis Hlist : listVoicesCached w st = (Returned voices, st1).
Hypothesis Hfind : findVoice voices (voiceName parsed) = Some v.

(** The handler makes the remote call and answers by its outcome. *)
Lemma synthesizeHandler_found :
  synthesizeHandler reqBody w st
  = (answerTo parsed v (synthesizeSpeech w (forwardedRequest parsed v)),
     Eff.logged (SynthesizeSpeechCall (forwardedRequest parsed v)) st1).
Proof.
  unfold synthesizeHandler, parseBody. rewrite Hparse.
  run_eff. rewrite Hlist, Hfind. unfold synthesizeWith. run_eff.
  fold (forwardedRequest parsed v).
  destruct (synthesizeSpeech w (forwardedRequest parsed v)) as [[bytes|]|e];
    try reflexivity.
  rewrite toBase64_truthy. destruct bytes; reflexivity.
Qed.

(** Whatever the remote synthesis throws lands in the one [catch] of the
    handler, which answers 400. *)
Lemma synthesizeHandler_remote_throw (e : JsError) :
  synthesizeSpeech w (forwardedRequest parsed v) = Thrown e ->
  fst (synthesizeHandler reqBody w st)
  = {| status := 400;
       body := ErrorJson (js "Bad request") (Some (Message (errorText e))) |}.
Proof.
  intros Hs. rewrite synthesizeHandler_found, Hs. reflexivity.
Qed.

(** C2: a valid request in markup mode for a CHIRP_HD voice is not
    refused: the request forwarded to the remote service carries the
    input as plain text, without speakingRate and pitch; and when the
    remote call gives audio the answer is 200, with one warning for the
    markup and one for each of speakingRate and pitch that was supplied. *)
Theorem chirp_ssml_downgraded :
  voiceType v = CHIRP_HD ->
  inputType parsed = ssml_input ->
  exists request,
    remoteCalls (snd (synthesizeHandler reqBody w st))
    = remoteCalls st1 ++ [SynthesizeSpeechCall request]
    /\ input request = text_ (text parsed)
    /\ cfg_speakingRate (audioConfig request) = None
    /\ cfg_pitch (audioConfig request) = None
    /\ forall bytes,
         synthesizeSpeech w request = Returned (Some bytes) -> bytes <> [] ->
         exists r,
           fst (synthesizeHandler reqBody w st)
           = {| status := 200; body := SynthesisJson r |}
           /\ res_inputType r = text_input
           /\ warnings r
              = [warnSsml]
                ++ match speakingRate parsed with
                   | Some _ => [warnSpeakingRate]
                   | None => []
                   end
                ++ match pitch parsed with
                   | Some _ => [warnPitch]
                   | None => []
                   end.
Proof.
  intros Hchirp Hssml.
  pose proof (chirpLimits_chirp_ssml _ Hssml) as Hadj.
  exists (forwardedRequest parsed v).
  rewrite synthesizeHandler_found. cbn [snd fst]. split; [reflexivity|].
  unfold forwardedRequest at 1 2 3, buildRequest. rewrite Hchirp, Hadj.
  cbn [input audioConfig cfg_speakingRate cfg_pitch adj_inputType
       adj_speakingRate adj_pitch].
  repeat (split; [reflexivity|]).
  intros bytes Hs Hne. rewrite Hs. destruct bytes as [|b bytes]; [congruence|].
  unfold answerTo, successResponse. rewrite Hchirp, Hadj.
  eexists. split; [reflexivity|]. split; reflexivity.
Qed.

End VoiceFound.

Lemma findVoice_none (voices : list Voice) (voiceName : jsstring) :
  (forall v, In v voices -> name v <> Some voiceName) ->
  findVoice voices voiceName = None.
Proof.
  intros H. unfold findVoice.
  destruct (find _ voices) as [v|] eqn:E; [|reflexivity].
  apply find_some in E as [Hin Hn]. destruct (name v) as [n|] eqn:En; [|discriminate].
  apply JsString_eqb_eq in Hn. subst n. now destruct (H v Hin).
Qed.

Lemma findVoice_some (voices : list Voice) (voiceName : jsstring) (v : Voice) :
  findVoice voices voiceName = Some v -> In v voices /\ name v = Some voiceName.
Proof.
  unfold findVoice. intros E. apply find_some in E as [Hin Hn]. split; [exact Hin|].
  destruct (name v) as [n|]; [|discriminate].
  apply JsString_eqb_eq in Hn. now subst.
Qed.

(** A 200 answer comes from an accepted body, a voice of the directory
    and audio bytes, at least one. *)
Lemma synthesizeHandler_success_inv (reqBody : json) (w : World) (st : Store)
    (r : SynthesisResult) :
  body (fst (synthesizeHandler reqBody w st)) = SynthesisJson r ->
  exists parsed voices st1 v bytes,
    SynthesizeSchema_parse reqBody = Returned parsed
    /\ listVoicesCached w st = (Returned voices, st1)
    /\ findVoice voices (voiceName parsed) = Some v
    /\ synthesizeSpeech w (forwardedRequest parsed v) = Returned (Some bytes)
    /\ bytes <> []
    /\ fst (synthesizeHandler reqBody w st)
       = successResponse parsed v (chirpLimits parsed (voiceType v)) (toBase64 bytes).
Proof.
  intros Hr.
  destruct (SynthesizeSchema_parse reqBody) as [parsed|errors] eqn:Hp.
  2:{ rewrite (synthesizeHandler_invalid _ _ _ Hp) in Hr. discriminate. }
  destruct (listVoicesCached w st) as [[voices|e] st1] eqn:Hl.
  2:{ rewrite (synthesizeHandler_listing_failed _ _ _ Hp Hl) in Hr. discriminate. }
  destruct (findVoice voices (voiceName parsed)) as [v|] eqn:Hf.
  2:{ rewrite (synthesizeHandler_unknown _ _ _ Hp Hl Hf) in Hr. discriminate. }
  pose proof (synthesizeHandler_found _ _ _ Hp Hl Hf) as Hrun.
  rewrite Hrun in Hr |- *. cbn [fst] in Hr |- *.
  destruct (synthesizeSpeech w _) as [[[|b bytes]|]|e] eqn:Hs; try discriminate.
  exists parsed, voices, st1, v, (b :: bytes).
  repeat (split; [reflexivity || assumption || discriminate|]).
  reflexivity.
Qed.

(** ** Synthesis handler: the claims *)

(** C1: the request of a valid body for a listed voice, with the remote
    synthesis throwing "14 UNAVAILABLE": the handler answers 400
    "Bad request" with the message as details, where the claim has 500;
    the remote listing failing the same way in GET /api/voices is
    answered 500. *)
Theorem synthesis_failure_answered_400 :
  SynthesizeSchema_parse Sample.helloBody = Returned Sample.helloParsed
  /\ fst (synthesizeHandler Sample.helloBody (Sample.synthesisDown 1000) initialStore)
     = {| status := 400;
          body := ErrorJson (js "Bad request")
                            (Some (Message (js "14 UNAVAILABLE"))) |}
  /\ synthesisCalls
       (remoteCalls
          (snd (synthesizeHandler Sample.helloBody (Sample.synthesisDown 1000)
                  initialStore)))
     = [forwardedRequest Sample.helloParsed (toVoice Sample.standardA)]
  /\ status (fst (getVoicesHandler (Sample.down 1000) initialStore)) = 500%Z.
Proof. repeat split. Qed.

Lemma chirp_ssml_downgraded_witness :
  exists request,
    remoteCalls (snd (synthesizeHandler Sample.chirpSsmlBody (Sample.healthy 1000)
                        initialStore))
    = [ListVoicesCall] ++ [SynthesizeSpeechCall request]
    /\ input request = text_ (js "<speak>Hi</speak>")
    /\ cfg_speakingRate (audioConfig request) = None
    /\ cfg_pitch (audioConfig request) = None
    /\ forall bytes,
         synthesizeSpeech (Sample.healthy 1000) request = Returned (Some bytes) ->
         bytes <> [] ->
         exists r,
           fst (synthesizeHandler Sample.chirpSsmlBody (Sample.healthy 1000) initialStore)
           = {| status := 200; body := SynthesisJson r |}
           /\ res_inputType r = text_input
           /\ warnings r = [warnSsml] ++ [warnSpeakingRate] ++ [warnPitch].
Proof.
  apply (chirp_ssml_downgraded Sample.chirpSsmlBody (Sample.healthy 1000) initialStore
           (parsed := Sample.chirpSsmlParsed)
           (voices := map toVoice [Sample.standardA; Sample.chirpAchernar])
           (st1 := {| voicesCache :=
                        {| atMs := 1000;
                           voices := map toVoice [Sample.standardA; Sample.chirpAchernar] |};
                      remoteCalls := [ListVoicesCall] |})
           (v := toVoice Sample.chirpAchernar)); reflexivity.
Defined.

(** C7: when the remote synthesis returns no audio content, or an empty
    one, the handler answers 500 "No audioContent returned by Google TTS.";
    and an answer carrying audio never carries an empty one. *)
Theorem empty_audio_answered_500 :
  (forall (reqBody : json) (w : World) (st : Store) parsed voices st1 v,
      SynthesizeSchema_parse reqBody = Returned parsed ->
      listVoicesCached w st = (Returned voices, st1) ->
      findVoice voices (voiceName parsed) = Some v ->
      synthesizeSpeech w (forwardedRequest parsed v) = Returned None
      \/ synthesizeSpeech w (forwardedRequest parsed v) = Returned (Some []) ->
      fst (synthesizeHandler reqBody w st)
      = {| status := 500;
           body := ErrorJson (js "No audioContent returned by Google TTS.") None |})
  /\ (forall (reqBody : json) (w : World) (st : Store) (r : SynthesisResult),
        body (fst (synthesizeHandler reqBody w st)) = SynthesisJson r ->
        base64 (audio r) <> []).
Proof.
  split.
  - intros reqBody w st parsed voices st1 v Hp Hl Hf Hs.
    rewrite (synthesizeHandler_found _ _ _ Hp Hl Hf). cbn [fst].
    destruct Hs as [-> | ->]; reflexivity.
  - intros reqBody w st r Hr.
    destruct (synthesizeHandler_success_inv _ _ _ Hr)
      as (parsed & voices & st1 & v & bytes & _ & _ & _ & _ & Hne & Hok).
    rewrite Hok in Hr. unfold successResponse in Hr. cbn [body] in Hr.
    injection Hr as <-. cbn [audio base64].
    intros H. apply toBase64_nil in H. contradiction.
Qed.

Lemma empty_audio_answered_500_witness :
  status (fst (synthesizeHandler Sample.helloBody (Sample.silent 1000) initialStore))
  = 500%Z.
Proof.
  rewrite (proj1 empty_audio_answered_500 Sample.helloBody (Sample.silent 1000)
             initialStore Sample.helloParsed
             (map toVoice [Sample.standardA; Sample.chirpAchernar])
             {| voicesCache :=
                  {| atMs := 1000;
                     voices := map toVoice [Sample.standardA; Sample.chirpAchernar] |};
                remoteCalls := [ListVoicesCall] |}
             (toVoice Sample.standardA)
             eq_refl eq_refl eq_refl (or_intror eq_refl)).
  reflexivity.
Defined.

(** C8: a valid request naming a voice that is not in the directory
    [listVoicesCached] gives is answered 400 "Unknown voiceName...", and
    the handler makes no remote synthesis call. *)
Theorem unknown_voice_answered_400 (reqBody : json) (w : World) (st : Store)
    parsed voices st1 :
  SynthesizeSchema_parse reqBody = Returned parsed ->
  listVoicesCached w st = (Returned voices, st1) ->
  (forall v, In v voices -> name v <> Some (voiceName parsed)) ->
  fst (synthesizeHandler reqBody w st)
  = {| status := 400;
       body := ErrorJson
         (js "Unknown voiceName. Fetch /api/voices and pick one from the list.")
         None |}
  /\ synthesisCalls (remoteCalls (snd (synthesizeHandler reqBody w st)))
     = synthesisCalls (remoteCalls st).
Proof.
  intros Hp Hl Habsent.
  rewrite (synthesizeHandler_unknown _ _ _ Hp Hl (findVoice_none _ Habsent)).
  split; [reflexivity|]. cbn [snd].
  pose proof (listVoicesCached_no_synthesis w st) as H. now rewrite Hl in H.
Qed.

Lemma unknown_voice_answered_400_witness :
  status (fst (synthesizeHandler Sample.strangerBody (Sample.healthy 1000) initialStore))
  = 400%Z
  /\ synthesisCalls
       (remoteCalls
          (snd (synthesizeHandler Sample.strangerBody (Sample.healthy 1000) initialStore)))
     = [].
Proof.
  destruct (unknown_voice_answered_400 Sample.strangerBody (Sample.healthy 1000)
              initialStore
              (parsed := Sample.strangerParsed)
              (voices := map toVoice [Sample.standardA; Sample.chirpAchernar])
              (st1 := {| voicesCache :=
                           {| atMs := 1000;
                              voices := map toVoice [Sample.standardA; Sample.chirpAchernar] |};
                         remoteCalls := [ListVoicesCall] |})
              eq_refl eq_refl) as [H1 H2].
  - intros v [<- | [<- | []]]; vm_compute; discriminate.
  - split; [now rewrite H1 | exact H2].
Defined.

(** C9: the request [{inputType:"text", text:"Hello",
    voiceName:"en-US-Standard-A", audioEncoding:"MP3"}], the directory
    holding that voice as STANDARD (4 USD per million characters) and the
    remote call giving audio: the answer is 200 with
    [estimatedCostUsd = (4/1_000_000)*5] and [mimeType = "audio/mpeg"].
    In every 200 answer the character count is the length of the raw
    [text] member of the body, markup included, and the estimate is
    computed from that count. *)
Theorem hello_standard_scenario :
  (forall (w : World) (st : Store) voices st1 v bytes,
      listVoicesCached w st = (Returned voices, st1) ->
      findVoice voices (js "en-US-Standard-A") = Some v ->
      voiceType v = STANDARD ->
      synthesizeSpeech w (forwardedRequest Sample.helloParsed v)
      = Returned (Some bytes) ->
      bytes <> [] ->
      exists r,
        fst (synthesizeHandler Sample.helloBody w st)
        = {| status := 200; body := SynthesisJson r |}
        /\ estimatedCostUsd (billingEstimate r) = (4 / 1000000 * 5)%float
        /\ per1MCharactersUsd (billingEstimate r) = NumberValue 4
        /\ mimeType (audio r) = js "audio/mpeg"
        /\ charCount r = 5%nat)
  /\ (forall (reqBody : json) (w : World) (st : Store) (r : SynthesisResult),
        body (fst (synthesizeHandler reqBody w st)) = SynthesisJson r ->
        exists o raw,
          reqBody = JObject o
          /\ getMember o (js "text") = Some (JString raw)
          /\ charCount r = List.length raw
          /\ estimatedCostUsd (billingEstimate r)
             = estimateCostUsd (tierKey (voiceType (res_voice r)))
                               (float_of_nat (List.length raw))).
Proof.
  split.
  - intros w st voices st1 v bytes Hl Hf Hstd Hs Hne.
    assert (Hp : SynthesizeSchema_parse Sample.helloBody = Returned Sample.helloParsed)
      by reflexivity.
    pose proof (synthesizeHandler_found _ _ _ Hp Hl Hf) as Hrun.
    rewrite Hrun, Hs. destruct bytes as [|b bytes]; [congruence|].
    unfold answerTo, successResponse. rewrite Hstd.
    eexists. split; [reflexivity|]. repeat split.
  - intros reqBody w st r Hr.
    destruct (synthesizeHandler_success_inv _ _ _ Hr)
      as (parsed & voices & st1 & v & bytes & Hp & _ & _ & _ & _ & Hok).
    destruct (SynthesizeSchema_parse_returned _ Hp) as (o & -> & Htext & _).
    rewrite Hok in Hr. unfold successResponse in Hr. cbn [body] in Hr.
    injection Hr as <-.
    exists o, (text parsed). repeat split. exact Htext.
Qed.

Lemma hello_standard_scenario_witness :
  exists r,
    fst (synthesizeHandler Sample.helloBody (Sample.healthy 1000) initialStore)
    = {| status := 200; body := SynthesisJson r |}
    /\ estimatedCostUsd (billingEstimate r) = (4 / 1000000 * 5)%float
    /\ per1MCharactersUsd (billingEstimate r) = NumberValue 4
    /\ mimeType (audio r) = js "audio/mpeg"
    /\ charCount r = 5%nat.
Proof.
  apply (proj1 hello_standard_scenario (Sample.healthy 1000) initialStore
           (map toVoice [Sample.standardA; Sample.chirpAchernar])
           {| voicesCache :=
                {| atMs := 1000;
                   voices := map toVoice [Sample.standardA; Sample.chirpAchernar] |};
              remoteCalls := [ListVoicesCall] |}
           (toVoice Sample.standardA) Sample.audioBytes);
    try reflexivity.
  discriminate.
Defined.

(** Markup counts: seventeen characters for [<speak>Hi</speak>], though
    the voice is sent [Hi] marked up or, for a Chirp voice, the same
    seventeen characters as plain text. *)
Example markup_is_counted :
  match body (fst (synthesizeHandler Sample.chirpSsmlBody (Sample.healthy 1000)
                     initialStore)) with
  | SynthesisJson r =>
      charCount r = 17%nat
      /\ estimatedCostUsd (billingEstimate r) = (30 / 1000000 * 17)%float
  | _ => False
  end.
Proof. vm_compute. split; reflexivity. Qed.

(* ================================================================= *)
(** * Further properties of the server *)

(** ** Tier classification and prices *)

Lemma includes_iff_not (s pat : jsstring) :
  JsString.includes s pat = false <-> ~ JsString.occurs_in pat s.
Proof.
  rewrite <- includes_spec. destruct (JsString.includes s pat); split;
    congruence.
Qed.

(** The whole decision table of [voiceTypeFromName]: each tier is
    returned exactly when one of its patterns occurs in the name and no
    pattern of an earlier tier does. *)
Theorem voiceTypeFromName_decision_table (n : jsstring) :
  let has p := JsString.occurs_in (js p) n in
  let studio := has "-Studio-"%string in
  let neural2 := has "-Neural2-"%string in
  let wavenet := has "-Wavenet-"%string \/ has "-WaveNet-"%string in
  let standard := has "-Standard-"%string in
  let chirp := has "Chirp3-HD"%string \/ has "Chirp-HD"%string \/ has "-Chirp-"%string in
  let polyglot := has "-Polyglot-"%string in
  (voiceTypeFromName n = STUDIO <-> studio)
  /\ (voiceTypeFromName n = NEURAL2 <-> ~ studio /\ neural2)
  /\ (voiceTypeFromName n = WAVENET <-> ~ studio /\ ~ neural2 /\ wavenet)
  /\ (voiceTypeFromName n = STANDARD
      <-> ~ studio /\ ~ neural2 /\ ~ wavenet /\ standard)
  /\ (voiceTypeFromName n = CHIRP_HD
      <-> ~ studio /\ ~ neural2 /\ ~ wavenet /\ ~ standard /\ chirp)
  /\ (voiceTypeFromName n = POLYGLOT
      <-> ~ studio /\ ~ neural2 /\ ~ wavenet /\ ~ standard /\ ~ chirp /\ polyglot)
  /\ (voiceTypeFromName n = OTHER
      <-> ~ studio /\ ~ neural2 /\ ~ wavenet /\ ~ standard /\ ~ chirp /\ ~ polyglot).
Proof.
  cbv zeta. unfold voiceTypeFromName.
  repeat match goal with
         | |- context [JsString.includes n ?p] =>
             let E := fresh "E" in
             destruct (JsString.includes n p) eqn:E;
             [apply includes_spec in E | apply includes_iff_not in E];
             cbn [orb]; cbv iota
         end;
    repeat split; intros; try discriminate; tauto.
Qed.

Lemma voiceTypeFromName_decision_table_witness :
  voiceTypeFromName (js "en-US-Neural2-A") = NEURAL2.
Proof.
  apply (proj1 (proj2 (voiceTypeFromName_decision_table (js "en-US-Neural2-A")))).
  split.
  - apply includes_iff_not. reflexivity.
  - exists (js "en-US"), (js "A"). reflexivity.
Defined.

Lemma tier_rate (t : VoiceType) :
  exists rate,
    In (tierKey t, rate) PRICE_PER_1M_USD
    /\ getProperty PRICE_PER_1M_USD (tierKey t) = NumberValue rate
    /\ estimateCostUsd (tierKey t) 1000000 = rate.
Proof.
  destruct t; eexists; (split; [|split; reflexivity]); simpl; tauto.
Qed.

(** Every tier [voiceTypeFromName] can return has its own rate in the
    pricing table: for a tier of the classifier the [??] of
    [estimateCostUsd] never falls back, and the estimate for one million
    characters is that rate. *)
Theorem every_classified_tier_is_priced (n : jsstring) :
  exists rate,
    In (tierKey (voiceTypeFromName n), rate) PRICE_PER_1M_USD
    /\ getProperty PRICE_PER_1M_USD (tierKey (voiceTypeFromName n)) = NumberValue rate
    /\ estimateCostUsd (tierKey (voiceTypeFromName n)) 1000000 = rate.
Proof. exact (tier_rate (voiceTypeFromName n)). Qed.

(** ** Validation *)

Lemma parseString_bounds lo hi v s :
  parseString lo hi v = Some s ->
  (lo <= List.length s)%nat
  /\ match hi with Some h => (List.length s <= h)%nat | None => True end.
Proof.
  unfold parseString. destruct v as [[]|]; try discriminate.
  destruct (lo <=? List.length s0)%nat eqn:Elo; [|discriminate].
  apply Nat.leb_le in Elo.
  destruct hi as [h|]; cbn [andb].
  - destruct (List.length s0 <=? h)%nat eqn:Ehi; [|discriminate].
    apply Nat.leb_le in Ehi. intros H; injection H as <-. auto.
  - intros H; injection H as <-. auto.
Qed.

Lemma parseOptionalNumber_range lo hi v x :
  parseOptionalNumber lo hi v = Some x -> withinRange lo hi x.
Proof.
  unfold parseOptionalNumber. destruct v as [[]|]; try discriminate.
  - destruct (lo <=? x0)%float eqn:E1; [|discriminate].
    destruct (x0 <=? hi)%float eqn:E2; [|discriminate].
    intros H; injection H as <-. simpl. auto.
  - intros H; injection H as <-. exact I.
Qed.

(** What [SynthesizeSchema] guarantees of an accepted body. *)
Lemma SynthesizeSchema_parse_limits (reqBody : json) (parsed : Parsed) :
  SynthesizeSchema_parse reqBody = Returned parsed ->
  (1 <= List.length (text parsed) <= 4000)%nat
  /\ (1 <= List.length (voiceName parsed))%nat
  /\ withinRange 0.25 4.0 (speakingRate parsed)
  /\ withinRange (-20) 20 (pitch parsed)
  /\ withinRange (-96.0) 16.0 (volumeGainDb parsed).
Proof.
  destruct reqBody as [| | | | |o]; try discriminate.
  unfold SynthesizeSchema_parse. cbv zeta.
  destruct (parseInputType _); [|discriminate].
  destruct (parseString 1 (Some 4000%nat) _) eqn:Etext; [|discriminate].
  destruct (parseString 1 None _) eqn:Evoice; [|discriminate].
  destruct (parseOptionalString _); [|discriminate].
  destruct (parseAudioEncoding _); [|discriminate].
  destruct (parseOptionalNumber 0.25 4.0 _) eqn:Erate; [|discriminate].
  destruct (parseOptionalNumber (-20) 20 _) eqn:Epitch; [|discriminate].
  destruct (parseOptionalNumber (-96.0) 16.0 _) eqn:Egain; [|discriminate].
  intros H. injection H as <-. cbn [text voiceName speakingRate pitch volumeGainDb].
  apply parseString_bounds in Etext, Evoice.
  apply parseOptionalNumber_range in Erate, Epitch, Egain.
  tauto.
Qed.

Lemma SynthesizeSchema_parse_thrown (reqBody : json) (errors : list ZodIssue) :
  SynthesizeSchema_parse reqBody = Thrown errors -> errors <> [].
Proof.
  destruct reqBody as [| | | | |o]; try (intros H; injection H as <-; discriminate).
  unfold SynthesizeSchema_parse. cbv zeta.
  repeat match goal with
         | |- context [issueAt _ ?f] =>
             lazymatch f with
             | Some _ => fail
             | None => fail
             | _ =>
                 destruct f;
                 [|intros H; injection H as <-; cbn [issueAt app]; discriminate]
             end
         end.
  discriminate.
Qed.

(** A body [SynthesizeSchema] rejects is answered 400 "Bad request" with
    the issues, at least one, as details; the handler calls nothing
    remote and leaves the cache alone. *)
Theorem rejected_body_answered_400 (reqBody : json) (w : World) (st : Store)
    (errors : list ZodIssue) :
  SynthesizeSchema_parse reqBody = Thrown errors ->
  synthesizeHandler reqBody w st
  = ({| status := 400;
        body := ErrorJson (js "Bad request") (Some (IssueList errors)) |}, st)
  /\ errors <> [].
Proof.
  intros H. split.
  - now rewrite (synthesizeHandler_invalid _ w st H).
  - exact (SynthesizeSchema_parse_thrown _ H).
Qed.

Lemma rejected_body_answered_400_witness :
  synthesizeHandler (JObject [(js "text", JString []); (js "pitch", JNumber 21)])
    (Sample.healthy 1000) initialStore
  = ({| status := 400;
        body := ErrorJson (js "Bad request")
                  (Some (IssueList [[js "text"]; [js "voiceName"]; [js "pitch"]])) |},
     initialStore).
Proof.
  apply (rejected_body_answered_400
           (JObject [(js "text", JString []); (js "pitch", JNumber 21)])
           (Sample.healthy 1000) initialStore
           (errors := [[js "text"]; [js "voiceName"]; [js "pitch"]])).
  reflexivity.
Defined.

(** The [text] rule: a body whose [text] member is missing, is not a
    string, is empty or is longer than 4000 code units is rejected with an
    issue at the path [text], whatever the other members are. *)
Theorem text_out_of_bounds_rejected (o : list (jsstring * json)) :
  (forall s, getMember o (js "text") = Some (JString s) ->
             List.length s = 0%nat \/ (4000 < List.length s)%nat) ->
  exists errors,
    SynthesizeSchema_parse (JObject o) = Thrown errors
    /\ In [js "text"] errors.
Proof.
  intros Hbad.
  assert (Etext : parseString 1 (Some 4000%nat) (getMember o (js "text")) = None).
  { destruct (parseString 1 (Some 4000%nat) (getMember o (js "text"))) as [s|] eqn:E;
      [|reflexivity].
    pose proof (parseString_some _ _ _ E) as Hs.
    apply parseString_bounds in E. destruct (Hbad s Hs); lia. }
  unfold SynthesizeSchema_parse. cbv zeta. rewrite Etext.
  destruct (parseInputType _); eexists; (split; [reflexivity|]);
    cbn [issueAt app]; auto with datatypes.
Qed.

Lemma text_out_of_bounds_rejected_witness :
  exists errors,
    SynthesizeSchema_parse
      (JObject [(js "text", JString (repeat 97%N 4001));
                (js "voiceName", JString (js "en-US-Standard-A"))])
    = Thrown errors
    /\ In [js "text"] errors.
Proof.
  apply text_out_of_bounds_rejected.
  intros s H. vm_compute in H. injection H as <-. right. vm_compute.
  repeat constructor.
Defined.
(** ** What the handlers call, and when *)

Lemma synthesizeHandler_calls (reqBody : json) (w : World) (st : Store) :
  exists extra,
    remoteCalls (snd (synthesizeHandler reqBody w st)) = remoteCalls st ++ extra
    /\ (extra = [] \/ extra = [ListVoicesCall]
        \/ (exists r, extra = [SynthesizeSpeechCall r])
        \/ (exists r, extra = [ListVoicesCall; SynthesizeSpeechCall r]))
    /\ (In ListVoicesCall extra
        <-> (exists parsed, SynthesizeSchema_parse reqBody = Returned parsed)
            /\ cacheIsValid (voicesCache st) (Date_now w) (VOICES_CACHE_TTL_SEC w) = false)
    /\ (forall r, In (SynthesizeSpeechCall r) extra ->
          exists parsed v,
            SynthesizeSchema_parse reqBody = Returned parsed
            /\ name v = Some (voiceName parsed)
            /\ r = forwardedRequest parsed v).
Proof.
  destruct (SynthesizeSchema_parse reqBody) as [parsed|errors] eqn:Hp.
  2:{ rewrite (synthesizeHandler_invalid _ w st Hp). exists []. cbn [snd].
      rewrite app_nil_r. split; [reflexivity|]. split; [auto|].
      split; [|intros r []]. split; [intros [] | intros [[p Habs] _]; discriminate]. }
  assert (Hlog : forall st1 o, listVoicesCached w st = (o, st1) ->
            exists pre, remoteCalls st1 = remoteCalls st ++ pre
              /\ (pre = [] /\ cacheIsValid (voicesCache st) (Date_now w)
                                (VOICES_CACHE_TTL_SEC w) = true
                  \/ pre = [ListVoicesCall]
                     /\ cacheIsValid (voicesCache st) (Date_now w)
                          (VOICES_CACHE_TTL_SEC w) = false)).
  { intros st1 o Hl.
    destruct (cacheIsValid (voicesCache st) (Date_now w) (VOICES_CACHE_TTL_SEC w)) eqn:E.
    - rewrite (listVoicesCached_hit _ _ E) in Hl. injection Hl as _ <-.
      exists []. rewrite app_nil_r. auto.
    - exists [ListVoicesCall]. split; [|auto].
      destruct (listVoices w) as [resp|e] eqn:Hr.
      + rewrite (listVoicesCached_refresh _ _ E Hr) in Hl. now injection Hl as _ <-.
      + rewrite (listVoicesCached_failure _ _ E Hr) in Hl. now injection Hl as _ <-. }
  destruct (listVoicesCached w st) as [[voices|e] st1] eqn:Hl;
    destruct (Hlog _ _ eq_refl) as (pre & Hpre & Hcase).
  2:{ rewrite (synthesizeHandler_listing_failed _ _ _ Hp Hl). exists pre. cbn [snd].
      split; [exact Hpre|].
      destruct Hcase as [[-> Hv] | [-> Hv]]; (split; [auto|]);
        (split; [|intros r H; simpl in H; intuition discriminate]);
        simpl; split; intros H; try tauto; try (split; [eauto | tauto]).
      destruct H as [_ H]. congruence. }
  destruct (findVoice voices (voiceName parsed)) as [v|] eqn:Hf.
  2:{ rewrite (synthesizeHandler_unknown _ _ _ Hp Hl Hf). exists pre. cbn [snd].
      split; [exact Hpre|].
      destruct Hcase as [[-> Hv] | [-> Hv]]; (split; [auto|]);
        (split; [|intros r H; simpl in H; intuition discriminate]);
        simpl; split; intros H; try tauto; try (split; [eauto | tauto]).
      destruct H as [_ H]. congruence. }
  rewrite (synthesizeHandler_found _ _ _ Hp Hl Hf). cbn [snd Eff.logged remoteCalls].
  exists (pre ++ [SynthesizeSpeechCall (forwardedRequest parsed v)]).
  rewrite Hpre, <- app_assoc. split; [reflexivity|].
  destruct (findVoice_some _ _ Hf) as [_ Hname].
  destruct Hcase as [[-> Hv] | [-> Hv]]; cbn [app].
  - split; [eauto|]. split.
    + simpl. split; [intros [H|[]]; discriminate | intros [_ H]; congruence].
    + intros r [H|[]]. injection H as <-. eauto.
  - split; [eauto 6|]. split.
    + simpl. split; [intros _; eauto | auto].
    + intros r [H|[H|[]]]; [discriminate|]. injection H as <-. eauto.
Qed.

Lemma getVoicesHandler_calls (w : World) (st : Store) :
  (remoteCalls (snd (getVoicesHandler w st)) = remoteCalls st
   \/ remoteCalls (snd (getVoicesHandler w st)) = remoteCalls st ++ [ListVoicesCall])
  /\ (forall l, body (fst (getVoicesHandler w st)) = VoicesJson l ->
        voices (voicesCache (snd (getVoicesHandler w st))) = list_voices l
        /\ count l = List.length (list_voices l)
        /\ status (fst (getVoicesHandler w st)) = 200%Z).
Proof.
  pose proof (listVoicesCached_log w st) as Hlog.
  unfold getVoicesHandler, Eff.try_catch, Eff.bind.
  destruct (listVoicesCached w st) as [[vs|e] st1] eqn:Hl; cbn [snd fst] in *.
  - unfold Eff.ttl, Eff.readCache, Eff.ret. cbn [snd fst body].
    split; [exact Hlog|]. intros l H. injection H as <-. cbn.
    split; [|auto].
    destruct (cacheIsValid (voicesCache st) (Date_now w) (VOICES_CACHE_TTL_SEC w)) eqn:E.
    + rewrite (listVoicesCached_hit _ _ E) in Hl. now injection Hl as <- <-.
    + destruct (listVoices w) as [resp|e] eqn:Hr.
      * rewrite (listVoicesCached_refresh _ _ E Hr) in Hl. now injection Hl as <- <-.
      * rewrite (listVoicesCached_failure _ _ E Hr) in Hl. discriminate.
  - split; [exact Hlog|]. intros l H. discriminate.
Qed.
(** The remote calls of one POST /api/synthesize: at most one listing and
    at most one synthesis, the listing first; the listing is called
    exactly when the body is accepted and the cache is not valid, and a
    synthesis is called only for an accepted body. *)
Theorem synthesizeHandler_remote_calls (reqBody : json) (w : World) (st : Store) :
  exists extra,
    remoteCalls (snd (synthesizeHandler reqBody w st)) = remoteCalls st ++ extra
    /\ (extra = [] \/ extra = [ListVoicesCall]
        \/ (exists r, extra = [SynthesizeSpeechCall r])
        \/ (exists r, extra = [ListVoicesCall; SynthesizeSpeechCall r]))
    /\ (In ListVoicesCall extra
        <-> (exists parsed, SynthesizeSchema_parse reqBody = Returned parsed)
            /\ cacheIsValid (voicesCache st) (Date_now w) (VOICES_CACHE_TTL_SEC w) = false)
    /\ (forall r, In (SynthesizeSpeechCall r) extra ->
          exists parsed v,
            SynthesizeSchema_parse reqBody = Returned parsed
            /\ name v = Some (voiceName parsed)
            /\ r = forwardedRequest parsed v).
Proof. exact (synthesizeHandler_calls reqBody w st). Qed.

(** GET /api/voices calls the listing at most once, and never the
    synthesis; after a 200 answer the cache holds the list answered. *)
Theorem getVoicesHandler_remote_calls (w : World) (st : Store) :
  (remoteCalls (snd (getVoicesHandler w st)) = remoteCalls st
   \/ remoteCalls (snd (getVoicesHandler w st)) = remoteCalls st ++ [ListVoicesCall])
  /\ (forall l, body (fst (getVoicesHandler w st)) = VoicesJson l ->
        voices (voicesCache (snd (getVoicesHandler w st))) = list_voices l
        /\ count l = List.length (list_voices l)
        /\ status (fst (getVoicesHandler w st)) = 200%Z).
Proof. exact (getVoicesHandler_calls w st). Qed.

Lemma synthesizeHandler_remote_calls_witness :
  exists parsed v,
    SynthesizeSchema_parse Sample.helloBody = Returned parsed
    /\ name v = Some (voiceName parsed)
    /\ forwardedRequest Sample.helloParsed (toVoice Sample.standardA)
       = forwardedRequest parsed v.
Proof.
  destruct (synthesizeHandler_remote_calls Sample.helloBody (Sample.healthy 1000)
              initialStore) as (extra & Hlog & _ & _ & Hsynth).
  apply Hsynth.
  assert (E : extra = [ListVoicesCall;
                       SynthesizeSpeechCall
                         (forwardedRequest Sample.helloParsed (toVoice Sample.standardA))])
    by exact (app_inv_head [] _ _ (eq_sym Hlog)).
  rewrite E. right. left. reflexivity.
Defined.

Lemma getVoicesHandler_remote_calls_witness :
  voices (voicesCache (snd (getVoicesHandler (Sample.healthy 5) initialStore)))
  = map toVoice [Sample.standardA; Sample.chirpAchernar].
Proof.
  apply (proj2 (getVoicesHandler_remote_calls (Sample.healthy 5) initialStore)
           {| list_voices := map toVoice [Sample.standardA; Sample.chirpAchernar];
              languages := [js "en-US"];
              voiceTypes := [CHIRP_HD; STANDARD];
              ttlSec := 3600;
              cachedAt := Some 5%Z;
              count := 2 |}).
  reflexivity.
Defined.

(** ** Invariants of the running server *)

Lemma toVoice_derived (raw : RawVoice) : derivedVoice (toVoice raw).
Proof.
  unfold derivedVoice, toVoice. cbn [name voiceType ssmlGender naturalSampleRateHertz].
  split; [reflexivity|]. split.
  - destruct (raw_ssmlGender raw) as [g|]; [|reflexivity].
    destruct (JsString.truthy g) eqn:E; [exact E | reflexivity].
  - destruct (raw_naturalSampleRateHertz raw) as [r|]; [|discriminate].
    destruct (r =? 0)%Z eqn:E; [discriminate|].
    apply Z.eqb_neq in E. congruence.
Qed.

(** [listVoicesCached] keeps the cache made of derived voices, and what
    it returns is the cache it leaves. *)
Lemma listVoicesCached_derived (w : World) (st : Store) :
  Forall derivedVoice (voices (voicesCache st)) ->
  Forall derivedVoice (voices (voicesCache (snd (listVoicesCached w st))))
  /\ forall vs, fst (listVoicesCached w st) = Returned vs ->
                vs = voices (voicesCache (snd (listVoicesCached w st))).
Proof.
  intros Hinv.
  destruct (cacheIsValid (voicesCache st) (Date_now w) (VOICES_CACHE_TTL_SEC w)) eqn:E.
  - rewrite (listVoicesCached_hit _ _ E). cbn [fst snd]. split; [exact Hinv|].
    intros vs H. now injection H as <-.
  - destruct (listVoices w) as [resp|e] eqn:Hr.
    + rewrite (listVoicesCached_refresh _ _ E Hr). cbn [fst snd voicesCache voices].
      split.
      * apply Forall_forall. intros v Hin. apply in_map_iff in Hin as [raw [<- _]].
        apply toVoice_derived.
      * intros vs H. now injection H as <-.
    + rewrite (listVoicesCached_failure _ _ E Hr). cbn [fst snd Eff.logged voicesCache].
      split; [exact Hinv | discriminate].
Qed.

Lemma synthesizeHandler_cache (reqBody : json) (w : World) (st : Store) :
  voicesCache (snd (synthesizeHandler reqBody w st)) = voicesCache st
  \/ voicesCache (snd (synthesizeHandler reqBody w st))
     = voicesCache (snd (listVoicesCached w st)).
Proof.
  destruct (SynthesizeSchema_parse reqBody) as [parsed|errors] eqn:Hp.
  2:{ left. now rewrite (synthesizeHandler_invalid _ w st Hp). }
  right. destruct (listVoicesCached w st) as [[vs|e] st1] eqn:Hl.
  2:{ now rewrite (synthesizeHandler_listing_failed _ _ _ Hp Hl). }
  destruct (findVoice vs (voiceName parsed)) as [v|] eqn:Hf.
  - now rewrite (synthesizeHandler_found _ _ _ Hp Hl Hf).
  - now rewrite (synthesizeHandler_unknown _ _ _ Hp Hl Hf).
Qed.

Lemma getVoicesHandler_cache (w : World) (st : Store) :
  voicesCache (snd (getVoicesHandler w st))
  = voicesCache (snd (listVoicesCached w st)).
Proof.
  unfold getVoicesHandler, Eff.try_catch, Eff.bind.
  destruct (listVoicesCached w st) as [[vs|e] st1]; reflexivity.
Qed.

Lemma serve_derived (r : HttpRequest) (w : World) (st : Store) :
  Forall derivedVoice (voices (voicesCache st)) ->
  Forall derivedVoice (voices (voicesCache (snd (serve r w st)))).
Proof.
  intros Hinv. destruct (listVoicesCached_derived w st Hinv) as [Hl _].
  destruct r as [|reqBody]; cbn [serve].
  - now rewrite getVoicesHandler_cache.
  - destruct (synthesizeHandler_cache reqBody w st) as [-> | ->]; assumption.
Qed.

Lemma serveAll_derived (rs : list (HttpRequest * World)) (st : Store) :
  Forall derivedVoice (voices (voicesCache st)) ->
  Forall derivedVoice (voices (voicesCache (serveAll rs st))).
Proof.
  revert st. induction rs as [|[r w] rest IH]; intros st Hinv; cbn [serveAll].
  - exact Hinv.
  - apply IH. now apply serve_derived.
Qed.

(** Whatever requests were served since the start, in whatever worlds,
    every voice in the cache has the tier of its own name, a non-empty
    gender and a sample rate that is not zero. *)
Theorem cache_holds_derived_voices (rs : list (HttpRequest * World)) :
  Forall derivedVoice (voices (voicesCache (serveAll rs initialStore))).
Proof. apply serveAll_derived. constructor. Qed.

(** In a server started from the empty cache, the voice of a 200 answer
    carries the name asked for and the tier of that name: billing and the
    Chirp limits are decided by the requested name alone, and the price
    is the table rate of that tier. *)
Theorem answered_voice_is_the_named_one (rs : list (HttpRequest * World))
    (reqBody : json) (w : World) (r : SynthesisResult) :
  body (fst (synthesizeHandler reqBody w (serveAll rs initialStore))) = SynthesisJson r ->
  exists parsed,
    SynthesizeSchema_parse reqBody = Returned parsed
    /\ name (res_voice r) = Some (voiceName parsed)
    /\ voiceType (res_voice r) = voiceTypeFromName (voiceName parsed)
    /\ estimatedCostUsd (billingEstimate r)
       = estimateCostUsd (tierKey (voiceTypeFromName (voiceName parsed)))
                         (float_of_nat (List.length (text parsed)))
    /\ exists rate,
         In (tierKey (voiceTypeFromName (voiceName parsed)), rate) PRICE_PER_1M_USD
         /\ per1MCharactersUsd (billingEstimate r) = NumberValue rate.
Proof.
  intros Hr. set (st := serveAll rs initialStore) in *.
  destruct (synthesizeHandler_success_inv _ _ _ Hr)
    as (parsed & vs & st1 & v & bytes & Hp & Hl & Hf & _ & _ & Hok).
  assert (Hinv : Forall derivedVoice (voices (voicesCache st)))
    by (apply serveAll_derived; constructor).
  destruct (listVoicesCached_derived w st Hinv) as [Hinv1 Hret].
  rewrite Hl in Hinv1, Hret. cbn [fst snd] in Hinv1, Hret.
  specialize (Hret vs eq_refl). rewrite <- Hret in Hinv1.
  destruct (findVoice_some _ _ Hf) as [Hin Hname].
  rewrite Forall_forall in Hinv1. destruct (Hinv1 v Hin) as [Htier _].
  rewrite Hname in Htier.
  rewrite Hok in Hr. unfold successResponse in Hr. cbn [body] in Hr.
  injection Hr as <-. cbn [res_voice billingEstimate estimatedCostUsd per1MCharactersUsd].
  exists parsed. rewrite Htier. repeat (split; [assumption || reflexivity|]).
  destruct (tier_rate (voiceTypeFromName (voiceName parsed))) as (rate & Hin' & Hget & _).
  exists rate. split; [exact Hin'|]. now rewrite Hget.
Qed.

Lemma forwardedRequest_validated (reqBody : json) (parsed : Parsed) (v : Voice) :
  SynthesizeSchema_parse reqBody = Returned parsed ->
  validatedRequest (forwardedRequest parsed v).
Proof.
  intros Hp. destruct (SynthesizeSchema_parse_limits _ Hp) as (Ht & Hn & Hr & Hpi & Hg).
  unfold validatedRequest, forwardedRequest, buildRequest.
  cbn [input voice audioConfig sel_name cfg_speakingRate cfg_pitch cfg_volumeGainDb].
  split.
  - destruct (adj_inputType _); exact Ht.
  - split; [destruct (voiceName parsed); [simpl in Hn; lia | discriminate]|].
    unfold chirpLimits. revert Hr Hpi.
    destruct (VoiceType_eqb (voiceType v) CHIRP_HD), (inputType parsed),
      (speakingRate parsed), (pitch parsed);
      cbn [adj_speakingRate adj_pitch]; intros Hr Hpi;
      unfold withinRange in *; tauto.
Qed.

Lemma serve_validated (r : HttpRequest) (w : World) (st : Store) :
  Forall validatedRequest (synthesisCalls (remoteCalls st)) ->
  Forall validatedRequest (synthesisCalls (remoteCalls (snd (serve r w st)))).
Proof.
  intros Hinv. destruct r as [|reqBody]; cbn [serve].
  - destruct (getVoicesHandler_calls w st) as [[-> | ->] _]; [exact Hinv|].
    unfold synthesisCalls. rewrite flat_map_app. simpl. now rewrite app_nil_r.
  - destruct (synthesizeHandler_calls reqBody w st)
      as (extra & -> & _ & _ & Hsynth).
    unfold synthesisCalls in *. rewrite flat_map_app. apply Forall_app.
    split; [exact Hinv|]. apply Forall_forall. intros q Hq.
    apply in_flat_map in Hq as [c [Hc Hq]]. destruct c as [|q']; [destruct Hq|].
    destruct Hq as [<- | []].
    destruct (Hsynth _ Hc) as (parsed & v & Hp & _ & ->).
    exact (forwardedRequest_validated _ v Hp).
Qed.

(** Validation comes before any remote synthesis: whatever requests were
    served since the start, every request ever handed to
    [synthesizeSpeech] has a text of 1 to 4000 code units, a non-empty
    voice name, and speakingRate, pitch and volumeGainDb, where present,
    within the bounds of [SynthesizeSchema]. *)
Theorem only_validated_requests_are_forwarded (rs : list (HttpRequest * World)) :
  Forall validatedRequest (synthesisCalls (remoteCalls (serveAll rs initialStore))).
Proof.
  assert (H : forall st, Forall validatedRequest (synthesisCalls (remoteCalls st)) ->
                Forall validatedRequest (synthesisCalls (remoteCalls (serveAll rs st)))).
  { induction rs as [|[r w] rest IH]; intros st Hinv; cbn [serveAll].
    - exact Hinv.
    - apply IH. now apply serve_validated. }
  apply H. constructor.
Qed.
Lemma answered_voice_is_the_named_one_witness :
  exists parsed,
    SynthesizeSchema_parse Sample.helloBody = Returned parsed
    /\ voiceType (toVoice Sample.standardA) = voiceTypeFromName (voiceName parsed).
Proof.
  destruct (answered_voice_is_the_named_one
              [(GET_voices, Sample.healthy 500)] Sample.helloBody (Sample.healthy 1000)
              (r := {| audio := {| base64 := toBase64 Sample.audioBytes;
                                   mimeType := js "audio/mpeg";
                                   encoding := MP3 |};
                       res_voice := toVoice Sample.standardA;
                       charCount := 5;
                       res_inputType := text_input;
                       billingEstimate :=
                         {| currency := js "USD";
                            estimatedCostUsd := (4 / 1000000 * 5)%float;
                            per1MCharactersUsd := NumberValue 4 |};
                       warnings := [] |}) eq_refl)
    as (parsed & Hp & _ & Htier & _).
  exists parsed. split; [exact Hp | exact Htier].
Defined.

(** ** The Chirp limits touch Chirp voices only *)



(** Whatever the tier, the Chirp limits leave the text, the voice name,
    the encoding and the volume gain as asked; the warnings of a 200
    answer are at most three, and any warning means a CHIRP_HD voice
    asked with markup, speakingRate or pitch. *)
Theorem chirp_limits_scope (reqBody : json) (w : World) (st : Store)
    parsed voices st1 v :
  SynthesizeSchema_parse reqBody = Returned parsed ->
  listVoicesCached w st = (Returned voices, st1) ->
  findVoice voices (voiceName parsed) = Some v ->
  inputText (input (forwardedRequest parsed v)) = text parsed
  /\ sel_name (voice (forwardedRequest parsed v)) = voiceName parsed
  /\ cfg_audioEncoding (audioConfig (forwardedRequest parsed v)) = audioEncoding parsed
  /\ cfg_volumeGainDb (audioConfig (forwardedRequest parsed v)) = volumeGainDb parsed
  /\ forall r, body (fst (synthesizeHandler reqBody w st)) = SynthesisJson r ->
       (List.length (warnings r) <= 3)%nat
       /\ (warnings r <> [] ->
           voiceType v = CHIRP_HD
           /\ (inputType parsed = ssml_input
               \/ speakingRate parsed <> None \/ pitch parsed <> None)).
Proof.
  intros Hp Hl Hf. unfold forwardedRequest, buildRequest.
  cbn [input voice audioConfig sel_name cfg_audioEncoding cfg_volumeGainDb].
  split; [destruct (adj_inputType _); reflexivity|].
  repeat (split; [reflexivity|]).
  intros r Hr. rewrite (synthesizeHandler_found _ _ _ Hp Hl Hf) in Hr. cbn [fst] in Hr.
  destruct (synthesizeSpeech w _) as [[[|b bytes]|]|e]; try discriminate.
  unfold answerTo, successResponse in Hr. cbn [body] in Hr.
  injection Hr as <-. cbn [warnings]. unfold chirpLimits.
  destruct (voiceType v), (inputType parsed), (speakingRate parsed), (pitch parsed);
    cbn; (split; [lia|]); intros H; try congruence;
    (split; [reflexivity|]); auto; right; auto; try (left; discriminate);
    try (right; discriminate).
Qed.

Lemma chirp_limits_scope_witness :
  cfg_volumeGainDb
    (audioConfig (forwardedRequest Sample.chirpSsmlParsed (toVoice Sample.chirpAchernar)))
  = None.
Proof.
  apply (chirp_limits_scope Sample.chirpSsmlBody (Sample.healthy 1000) initialStore
           (parsed := Sample.chirpSsmlParsed)
           (voices := map toVoice [Sample.standardA; Sample.chirpAchernar])
           (st1 := {| voicesCache :=
                        {| atMs := 1000;
                           voices := map toVoice [Sample.standardA; Sample.chirpAchernar] |};
                      remoteCalls := [ListVoicesCall] |})
           (v := toVoice Sample.chirpAchernar)); reflexivity.
Defined.

(** ** The cache across calls *)

(** A refresh that lists at least one voice is served again, without a
    remote call, to every later call made less than the TTL after it. *)
Theorem refresh_then_hit (w1 w2 : World) (st : Store) raw raws :
  cacheIsValid (voicesCache st) (Date_now w1) (VOICES_CACHE_TTL_SEC w1) = false ->
  listVoices w1 = Returned (Some (raw :: raws)) ->
  (Date_now w2 - Date_now w1 < VOICES_CACHE_TTL_SEC w2 * 1000)%Z ->
  let first := listVoicesCached w1 st in
  fst first = Returned (map toVoice (raw :: raws))
  /\ listVoicesCached w2 (snd first) = (fst first, snd first).
Proof.
  intros Hmiss Hr Hage. cbv zeta.
  rewrite (listVoicesCached_refresh _ _ Hmiss Hr). cbn [fst snd].
  split; [reflexivity|].
  rewrite listVoicesCached_hit; [reflexivity|].
  apply cacheIsValid_true. cbn [voicesCache voices atMs]. split; [discriminate | exact Hage].
Qed.

Lemma refresh_then_hit_witness :
  listVoicesCached (Sample.down 3000) (snd (listVoicesCached (Sample.healthy 1000) initialStore))
  = (fst (listVoicesCached (Sample.healthy 1000) initialStore),
     snd (listVoicesCached (Sample.healthy 1000) initialStore)).
Proof.
  apply (refresh_then_hit (Sample.healthy 1000) (Sample.down 3000) initialStore
           (raw := Sample.standardA) (raws := [Sample.chirpAchernar]));
    reflexivity.
Defined.

(** A listing failure met while serving POST /api/synthesize lands in
    the same [catch]: 400 "Bad request" with the remote message, no
    synthesis call, the cache as it was. *)
Theorem listing_failure_in_synthesize (reqBody : json) (w : World) (st : Store)
    parsed e :
  SynthesizeSchema_parse reqBody = Returned parsed ->
  cacheIsValid (voicesCache st) (Date_now w) (VOICES_CACHE_TTL_SEC w) = false ->
  listVoices w = Thrown e ->
  synthesizeHandler reqBody w st
  = ({| status := 400;
        body := ErrorJson (js "Bad request") (Some (Message (errorText e))) |},
     {| voicesCache := voicesCache st;
        remoteCalls := remoteCalls st ++ [ListVoicesCall] |}).
Proof.
  intros Hp Hmiss Hr.
  exact (synthesizeHandler_listing_failed _ _ _ Hp (listVoicesCached_failure _ _ Hmiss Hr)).
Qed.

Lemma listing_failure_in_synthesize_witness :
  status (fst (synthesizeHandler Sample.helloBody (Sample.down 1000) initialStore))
  = 400%Z.
Proof.
  rewrite (listing_failure_in_synthesize Sample.helloBody (Sample.down 1000) initialStore
             (parsed := Sample.helloParsed) (e := Sample.unavailable)
             eq_refl eq_refl eq_refl).
  reflexivity.
Defined.
(** ** The billing estimate of an answer *)

(** The estimates of 1 to 4000 characters, tier by tier, computed. *)
Lemma estimates_checked :
  forallb
    (fun n =>
       forallb
         (fun kv : jsstring * float =>
            let c := estimateCostUsd (fst kv) (float_of_nat n) in
            (0 <? c)%float
            && (estimateCostUsd (fst kv) (float_of_nat (n - 1)) <=? c)%float
            && (c <=? 160 / 1000000 * 4000)%float)
         PRICE_PER_1M_USD)
    (seq 1 4000)
  = true.
Proof. vm_compute. reflexivity. Qed.

(** For each tier of the pricing table and every count from 1 to 4000,
    the estimate is positive, is not below the estimate for one character
    less, and is at most the Studio rate for 4000 characters
    (0.64 USD). *)
Theorem estimateCostUsd_bounds (tier : jsstring) (rate : float) (n : nat) :
  In (tier, rate) PRICE_PER_1M_USD ->
  (1 <= n <= 4000)%nat ->
  (0 <? estimateCostUsd tier (float_of_nat n))%float = true
  /\ (estimateCostUsd tier (float_of_nat (n - 1))
      <=? estimateCostUsd tier (float_of_nat n))%float = true
  /\ (estimateCostUsd tier (float_of_nat n) <=? 160 / 1000000 * 4000)%float = true.
Proof.
  intros Hin Hn. pose proof estimates_checked as H.
  rewrite forallb_forall in H. specialize (H n).
  rewrite in_seq in H. specialize (H ltac:(lia)).
  rewrite forallb_forall in H. specialize (H _ Hin). cbn [fst] in H. cbv zeta in H.
  apply andb_true_iff in H as [H H3]. apply andb_true_iff in H as [H1 H2]. auto.
Qed.

Lemma estimateCostUsd_bounds_witness :
  (0 <? estimateCostUsd (js "NEURAL2") (float_of_nat 250))%float = true.
Proof.
  apply (estimateCostUsd_bounds (tier := js "NEURAL2") (rate := 16%float) (n := 250)).
  - simpl. tauto.
  - lia.
Defined.

(** In every 200 answer the character count is between 1 and 4000, the
    rate shown is the table rate of the voice's tier, the estimate is that
    rate over a million times the count, and it is positive and at most
    0.64 USD. *)
Theorem billing_estimate_of_an_answer (reqBody : json) (w : World) (st : Store)
    (r : SynthesisResult) :
  body (fst (synthesizeHandler reqBody w st)) = SynthesisJson r ->
  (1 <= charCount r <= 4000)%nat
  /\ exists rate,
       In (tierKey (voiceType (res_voice r)), rate) PRICE_PER_1M_USD
       /\ per1MCharactersUsd (billingEstimate r) = NumberValue rate
       /\ estimatedCostUsd (billingEstimate r)
          = (rate / 1000000 * float_of_nat (charCount r))%float
       /\ (0 <? estimatedCostUsd (billingEstimate r))%float = true
       /\ (estimatedCostUsd (billingEstimate r) <=? 160 / 1000000 * 4000)%float = true.
Proof.
  intros Hr.
  destruct (synthesizeHandler_success_inv _ _ _ Hr)
    as (parsed & vs & st1 & v & bytes & Hp & _ & _ & _ & _ & Hok).
  destruct (SynthesizeSchema_parse_limits _ Hp) as (Hlen & _).
  rewrite Hok in Hr. unfold successResponse in Hr. cbn [body] in Hr.
  injection Hr as <-.
  cbn [charCount res_voice billingEstimate per1MCharactersUsd estimatedCostUsd].
  split; [exact Hlen|].
  destruct (tier_rate (voiceType v)) as (rate & Hin & Hget & _).
  exists rate. split; [exact Hin|]. rewrite Hget. split; [reflexivity|].
  pose proof estimates_checked as H.
  rewrite forallb_forall in H. specialize (H (List.length (text parsed))).
  rewrite in_seq in H. specialize (H ltac:(lia)).
  rewrite forallb_forall in H. specialize (H _ Hin). cbn [fst] in H. cbv zeta in H.
  apply andb_true_iff in H as [H H3]. apply andb_true_iff in H as [H1 _].
  split; [|auto]. unfold estimateCostUsd. rewrite Hget. reflexivity.
Qed.

Lemma billing_estimate_of_an_answer_witness :
  (1 <= 5 <= 4000)%nat
  /\ exists rate,
       In (tierKey STANDARD, rate) PRICE_PER_1M_USD
       /\ NumberValue 4 = NumberValue rate
       /\ (4 / 1000000 * 5)%float = (rate / 1000000 * float_of_nat 5)%float
       /\ (0 <? 4 / 1000000 * 5)%float = true
       /\ (4 / 1000000 * 5 <=? 160 / 1000000 * 4000)%float = true.
Proof.
  exact (billing_estimate_of_an_answer Sample.helloBody (Sample.healthy 1000) initialStore
           (r := {| audio := {| base64 := toBase64 Sample.audioBytes;
                                mimeType := js "audio/mpeg";
                                encoding := MP3 |};
                    res_voice := toVoice Sample.standardA;
                    charCount := 5;
                    res_inputType := text_input;
                    billingEstimate :=
                      {| currency := js "USD";
                         estimatedCostUsd := (4 / 1000000 * 5)%float;
                         per1MCharactersUsd := NumberValue 4 |};
                    warnings := [] |}) eq_refl).
Defined.

(** ** The index lists of GET /api/voices *)

Lemma JsString_ltb_irrefl (a : jsstring) : JsString.ltb a a = false.
Proof.
  induction a as [|x a IH]; [reflexivity|]. simpl.
  now rewrite N.ltb_irrefl, N.eqb_refl, IH.
Qed.

Lemma JsString_ltb_trans (a b c : jsstring) :
  JsString.ltb a b = true -> JsString.ltb b c = true -> JsString.ltb a c = true.
Proof.
  revert b c. induction a as [|x a IH]; intros [|y b] [|z c]; simpl;
    try discriminate; try reflexivity.
  rewrite !orb_true_iff, !andb_true_iff, !N.ltb_lt, !N.eqb_eq.
  intros [Hxy | [-> Hab]] [Hyz | [Heq Hbc]]; subst.
  - left. lia.
  - now left.
  - now left.
  - right. split; [reflexivity | now apply (IH b)].
Qed.

Lemma JsString_ltb_total (a b : jsstring) :
  JsString.ltb a b = false -> JsString.ltb b a = false -> a = b.
Proof.
  revert b. induction a as [|x a IH]; intros [|y b]; simpl;
    try discriminate; try reflexivity.
  rewrite !orb_false_iff, !andb_false_iff, !N.ltb_ge, !N.eqb_neq.
  intros [Hyx H1] [Hxy H2].
  assert (x = y) by lia. subst y.
  destruct H1 as [H1|H1]; [congruence|]. destruct H2 as [H2|H2]; [congruence|].
  now rewrite (IH b).
Qed.

Section SortedDistinct.

Variable A : Type.
Variables eqb ltb : A -> A -> bool.

Hypothesis eqb_eq : forall a b, eqb a b = true <-> a = b.
Hypothesis ltb_irrefl : forall a, ltb a a = false.
Hypothesis ltb_trans :
  forall a b c, ltb a b = true -> ltb b c = true -> ltb a c = true.
Hypothesis ltb_total : forall a b, ltb a b = false -> ltb b a = false -> a = b.

Lemma distinct_In (x : A) (xs : list A) : In x (distinct eqb xs) <-> In x xs.
Proof.
  induction xs as [|y xs IH]; simpl; [tauto|].
  rewrite filter_In, IH, negb_true_iff. split.
  - intros [H | [H _]]; auto.
  - intros [H | H]; [now left|].
    destruct (eqb y x) eqn:E.
    + left. now apply eqb_eq.
    + right. auto.
Qed.

Lemma distinct_NoDup (xs : list A) : NoDup (distinct eqb xs).
Proof.
  induction xs as [|y xs IH]; simpl; constructor.
  - rewrite filter_In, negb_true_iff. intros [_ H].
    assert (eqb y y = true) by now apply eqb_eq. congruence.
  - now apply NoDup_filter.
Qed.

Lemma insertSorted_In (x y : A) (xs : list A) :
  In y (insertSorted ltb x xs) <-> y = x \/ In y xs.
Proof.
  induction xs as [|z xs IH]; simpl; [intuition congruence|].
  destruct (ltb z x); simpl; [rewrite IH|]; intuition congruence.
Qed.

Lemma sort_In (y : A) (xs : list A) : In y (sort ltb xs) <-> In y xs.
Proof.
  unfold sort. induction xs as [|x xs IH]; simpl; [tauto|].
  rewrite insertSorted_In, IH. intuition congruence.
Qed.

Lemma insertSorted_sorted (x : A) (xs : list A) :
  ~ In x xs ->
  StronglySorted (fun a b => ltb a b = true) xs ->
  StronglySorted (fun a b => ltb a b = true) (insertSorted ltb x xs).
Proof.
  intros Hnot Hs. induction Hs as [|z xs Hs IH Hz]; simpl.
  - repeat constructor.
  - destruct (ltb z x) eqn:E.
    + constructor.
      * apply IH. intros H. apply Hnot. now right.
      * apply Forall_forall. intros y Hy. apply insertSorted_In in Hy as [-> | Hy];
          [exact E|]. rewrite Forall_forall in Hz. now apply Hz.
    + assert (Hxz : ltb x z = true).
      { destruct (ltb x z) eqn:E'; [reflexivity|].
        exfalso. apply Hnot. left. now apply ltb_total. }
      constructor; [now constructor|].
      constructor; [exact Hxz|].
      rewrite Forall_forall in Hz |- *. intros y Hy.
      apply (ltb_trans Hxz). now apply Hz.
Qed.

Lemma sort_sorted (xs : list A) :
  NoDup xs -> StronglySorted (fun a b => ltb a b = true) (sort ltb xs).
Proof.
  unfold sort. induction 1 as [|x xs Hnot Hnd IH]; simpl; [constructor|].
  apply insertSorted_sorted; [|exact IH].
  intros H. apply Hnot. exact (proj1 (sort_In x xs) H).
Qed.

Lemma sorted_NoDup (xs : list A) :
  StronglySorted (fun a b => ltb a b = true) xs -> NoDup xs.
Proof.
  induction 1 as [|x xs Hs IH Hx]; constructor; [|exact IH].
  intros Hin. rewrite Forall_forall in Hx. specialize (Hx x Hin).
  rewrite ltb_irrefl in Hx. discriminate.
Qed.

End SortedDistinct.

Lemma VoiceType_eqb_eq (a b : VoiceType) : VoiceType_eqb a b = true <-> a = b.
Proof. destruct a, b; simpl; split; congruence. Qed.

Lemma tierKey_injective (a b : VoiceType) : tierKey a = tierKey b -> a = b.
Proof.
  destruct a, b; intros H; try reflexivity; vm_compute in H; discriminate.
Qed.

(** The two index lists of a 200 answer of GET /api/voices: [languages]
    holds exactly the language codes of the voices listed and
    [voiceTypes] exactly their tiers, each once, in ascending order of
    code units. *)
Theorem voices_listing_indexes (w : World) (st : Store) (l : VoicesListing) :
  body (fst (getVoicesHandler w st)) = VoicesJson l ->
  (forall c, In c (languages l)
             <-> exists v, In v (list_voices l) /\ In c (languageCodes v))
  /\ StronglySorted (fun a b => JsString.ltb a b = true) (languages l)
  /\ NoDup (languages l)
  /\ (forall t, In t (voiceTypes l)
                <-> exists v, In v (list_voices l) /\ voiceType v = t)
  /\ StronglySorted (fun a b => JsString.ltb (tierKey a) (tierKey b) = true)
       (voiceTypes l)
  /\ NoDup (voiceTypes l).
Proof.
  unfold getVoicesHandler, Eff.try_catch, Eff.bind.
  destruct (listVoicesCached w st) as [[vs|e] st1]; [|discriminate].
  unfold Eff.ttl, Eff.readCache, Eff.ret. cbn [fst body].
  intros H. injection H as <-. cbn [languages voiceTypes list_voices].
  assert (Hlang : StronglySorted (fun a b => JsString.ltb a b = true)
            (sort JsString.ltb (distinct JsString.eqb (flat_map languageCodes vs)))).
  { apply sort_sorted.
    - exact JsString_ltb_trans.
    - exact JsString_ltb_total.
    - apply distinct_NoDup. exact JsString_eqb_eq. }
  assert (Htier : StronglySorted
            (fun a b => JsString.ltb (tierKey a) (tierKey b) = true)
            (sort (fun a b => JsString.ltb (tierKey a) (tierKey b))
                  (distinct VoiceType_eqb (map voiceType vs)))).
  { apply sort_sorted.
    - intros a b c. apply JsString_ltb_trans.
    - intros a b H1 H2. apply tierKey_injective. now apply JsString_ltb_total.
    - apply distinct_NoDup. exact VoiceType_eqb_eq. }
  split; [|split; [exact Hlang|split; [|split; [|split; [exact Htier|]]]]].
  - intros c. rewrite sort_In, (@distinct_In _ _ JsString_eqb_eq), in_flat_map. reflexivity.
  - apply (@sorted_NoDup _ _ JsString_ltb_irrefl _ Hlang).
  - intros t. rewrite sort_In, (@distinct_In _ _ VoiceType_eqb_eq), in_map_iff.
    split; intros [v [H1 H2]]; exists v; auto.
  - apply (@sorted_NoDup _ (fun a b => JsString.ltb (tierKey a) (tierKey b)));
      [|exact Htier].
    intros a. apply JsString_ltb_irrefl.
Qed.

Lemma voices_listing_indexes_witness :
  NoDup [CHIRP_HD; STANDARD].
Proof.
  apply (voices_listing_indexes (Sample.healthy 5) initialStore
           (l := {| list_voices := map toVoice [Sample.standardA; Sample.chirpAchernar];
                    languages := [js "en-US"];
                    voiceTypes := [CHIRP_HD; STANDARD];
                    ttlSec := 3600;
                    cachedAt := Some 5%Z;
                    count := 2 |})).
  reflexivity.
Defined.
(* ================================================================= *)
(** * Properties of the client console *)

(** ** History *)

Lemma pushHistory_firstn {Entry : Type} (e : Entry) (l : list Entry) :
  Client.pushHistory e (firstn 20 l) = firstn 20 (e :: l).
Proof.
  unfold Client.pushHistory.
  change (firstn 20 (e :: firstn 20 l)) with (e :: firstn 19 (firstn 20 l)).
  now rewrite firstn_firstn.
Qed.

Lemma fold_pushHistory {Entry : Type} (es l : list Entry) :
  fold_left (fun h entry => Client.pushHistory entry h) es (firstn 20 l)
  = firstn 20 (rev es ++ l).
Proof.
  revert l. induction es as [|e es IH]; intros l; [reflexivity|].
  cbn [fold_left rev]. rewrite pushHistory_firstn, IH, <- app_assoc. reflexivity.
Qed.

(** The history is the last twenty results, newest first: after the
    entries [es] were generated in that order it is the first twenty of
    [es] reversed, so it never holds more than twenty and the newest entry
    is at its head. *)
Theorem history_is_the_last_twenty {Entry : Type} (es : list Entry) :
  Client.historyAfter es = firstn 20 (rev es)
  /\ (List.length (Client.historyAfter es) <= 20)%nat
  /\ forall e, Client.historyAfter (es ++ [e])
               = e :: firstn 19 (Client.historyAfter es).
Proof.
  assert (H : forall l : list Entry, Client.historyAfter l = firstn 20 (rev l)).
  { intros l. unfold Client.historyAfter.
    change (@nil Entry) with (firstn 20 (@nil Entry)).
    now rewrite fold_pushHistory, app_nil_r. }
  split; [apply H|]. split.
  - rewrite H. apply firstn_le_length.
  - intros e. rewrite !H, rev_app_distr. cbn [rev app].
    change (firstn 20 (e :: rev es)) with (e :: firstn 19 (rev es)).
    now rewrite firstn_firstn.
Qed.

(** ** Labels of the tiers *)

(** The label of a tier is never empty, the six named tiers have their
    labels, any other non-empty string (OTHER among them) is shown as it
    is, and the seven tiers of the server get seven distinct labels. *)
Theorem voiceTypePretty_labels :
  (forall t, Client.voiceTypePretty t <> [])
  /\ map (fun t => Client.voiceTypePretty (Some (tierKey t)))
         [CHIRP_HD; WAVENET; NEURAL2; STUDIO; STANDARD; POLYGLOT; OTHER]
     = [js "Chirp 3: HD"; js "WaveNet"; js "Neural2"; js "Studio";
        js "Standard"; js "Polyglot"; js "OTHER"]
  /\ (forall a b, Client.voiceTypePretty (Some (tierKey a))
                  = Client.voiceTypePretty (Some (tierKey b)) -> a = b)
  /\ Client.voiceTypePretty None = js "Other"
  /\ Client.voiceTypePretty (Some []) = js "Other"
  /\ (forall s,
        s <> [] ->
        ~ In s [js "CHIRP_HD"; js "WAVENET"; js "NEURAL2"; js "STUDIO";
                js "STANDARD"; js "POLYGLOT"] ->
        Client.voiceTypePretty (Some s) = s).
Proof.
  split; [|split; [reflexivity|split; [|split; [reflexivity|split; [reflexivity|]]]]].
  - intros [s|]; [|discriminate]. unfold Client.voiceTypePretty.
    repeat match goal with
           | |- context [JsString.eqb s ?k] => destruct (JsString.eqb s k)
           end; try discriminate.
    destruct s; simpl; discriminate.
  - intros a b H. destruct a, b; try reflexivity; vm_compute in H; discriminate.
  - intros s Hne Hother. unfold Client.voiceTypePretty.
    repeat match goal with
           | |- context [JsString.eqb s ?k] =>
               let E := fresh "E" in
               destruct (JsString.eqb s k) eqn:E;
               [apply JsString_eqb_eq in E; exfalso; apply Hother; rewrite E;
                simpl; tauto|]
           end.
    destruct s; [congruence | reflexivity].
Qed.

Lemma voiceTypePretty_labels_witness :
  Client.voiceTypePretty (Some (js "NEWS")) = js "NEWS".
Proof.
  apply (proj2 (proj2 (proj2 (proj2 (proj2 voiceTypePretty_labels))))).
  - discriminate.
  - intros H. simpl in H.
    repeat (destruct H as [H|H]; [vm_compute in H; discriminate H|]). exact H.
Defined.

(** ** Trimming the text *)

Lemma trimStart_spec (s : jsstring) :
  exists pre, s = pre ++ Client.trimStart s
              /\ forallb Client.isTrimmed pre = true
              /\ match Client.trimStart s with
                 | [] => True
                 | c :: _ => Client.isTrimmed c = false
                 end.
Proof.
  induction s as [|c s (pre & Hs & Hpre & Hhd)]; [now exists []|].
  cbn [Client.trimStart]. destruct (Client.isTrimmed c) eqn:E.
  - exists (c :: pre). cbn [app forallb]. rewrite E, Hpre, <- Hs. auto.
  - exists []. auto.
Qed.

Lemma trimStart_fixed (s : jsstring) :
  match s with [] => True | c :: _ => Client.isTrimmed c = false end ->
  Client.trimStart s = s.
Proof. destruct s as [|c s]; [reflexivity|]. simpl. now intros ->. Qed.

(** [trim] removes exactly the white space at both ends: the text is
    white space, then the trimmed text, then white space; the trimmed
    text neither starts nor ends with white space; trimming again changes
    nothing. *)
Theorem trim_spec (s : jsstring) :
  (exists pre post,
      s = pre ++ Client.trim s ++ post
      /\ forallb Client.isTrimmed pre = true
      /\ forallb Client.isTrimmed post = true)
  /\ (forall c rest, Client.trim s = c :: rest -> Client.isTrimmed c = false)
  /\ (forall c front, Client.trim s = front ++ [c] -> Client.isTrimmed c = false)
  /\ Client.trim (Client.trim s) = Client.trim s.
Proof.
  unfold Client.trim, Client.trimEnd.
  destruct (trimStart_spec s) as (pre & Hs & Hpre & Hhd).
  set (m := Client.trimStart s) in *.
  destruct (trimStart_spec (rev m)) as (tsop & Hm & Hpost & Hlast).
  set (r := Client.trimStart (rev m)) in *.
  assert (Hm' : m = rev r ++ rev tsop).
  { rewrite <- rev_app_distr, <- Hm. now rewrite rev_involutive. }
  assert (Hfirst : forall c rest, rev r = c :: rest -> Client.isTrimmed c = false).
  { intros c rest Hc. destruct r as [|x r'] eqn:Er; [discriminate|].
    rewrite Hm', Hc in Hhd. exact Hhd. }
  assert (Hend : forall c front, rev r = front ++ [c] -> Client.isTrimmed c = false).
  { intros c front Hc. apply (f_equal (@rev _)) in Hc.
    rewrite rev_involutive, rev_app_distr in Hc. cbn in Hc. now rewrite Hc in Hlast. }
  split; [|split; [exact Hfirst|split; [exact Hend|]]].
  - exists pre, (rev tsop). rewrite <- Hm'. split; [exact Hs|]. split; [exact Hpre|].
    rewrite forallb_forall in Hpost |- *. intros x Hx. apply Hpost. now apply in_rev.
  - assert (H1 : Client.trimStart (rev r) = rev r).
    { apply trimStart_fixed. destruct (rev r) as [|c rest] eqn:E; [exact I|].
      exact (Hfirst c rest eq_refl). }
    rewrite H1, rev_involutive. f_equal. apply trimStart_fixed. exact Hlast.
Qed.

Lemma trim_spec_witness :
  Client.trim (js "  Hello world ") = js "Hello world"
  /\ Client.isTrimmed 72%N = false.
Proof.
  split; [reflexivity|].
  apply (proj1 (proj2 (trim_spec (js "  Hello world "))) 72%N (js "ello world")).
  reflexivity.
Defined.
(** ** The body the console posts *)

Lemma SFeqb_finite_refl s m e :
  SFeqb (S754_finite s m e) (S754_finite s m e) = true.
Proof.
  unfold SFeqb, SFcompare. destruct s; rewrite Z.compare_refl.
  - rewrite <- Pos.compare_antisym, Pos.compare_refl. reflexivity.
  - rewrite Pos.compare_refl. reflexivity.
Qed.

(** A number between two finite bounds is neither NaN nor infinite. *)
Lemma within_bounds_is_finite (lo hi x : float) sl ml el sh mh eh :
  Prim2SF lo = S754_finite sl ml el ->
  Prim2SF hi = S754_finite sh mh eh ->
  (lo <=? x)%float = true -> (x <=? hi)%float = true ->
  PrimFloat.is_nan x = false /\ PrimFloat.is_infinity x = false.
Proof.
  intros Hlo Hhi H1 H2.
  rewrite FloatAxioms.leb_spec in H1, H2. rewrite Hlo in H1. rewrite Hhi in H2.
  unfold PrimFloat.is_nan, PrimFloat.is_infinity.
  rewrite !FloatAxioms.eqb_spec, FloatAxioms.abs_spec.
  destruct (Prim2SF x) as [s|s| |s m e].
  - split; destruct s; reflexivity.
  - destruct s; [destruct sl | destruct sh]; discriminate.
  - discriminate.
  - rewrite SFeqb_finite_refl. split; reflexivity.
Qed.

Lemma above_quarter_is_not_zero (x : float) :
  (0.25 <=? x)%float = true -> PrimFloat.is_zero x = false.
Proof.
  intros H. rewrite FloatAxioms.leb_spec in H. unfold PrimFloat.is_zero.
  rewrite FloatAxioms.eqb_spec.
  destruct (Prim2SF x) as [s|s| |s m e]; try reflexivity.
  - vm_compute in H. discriminate.
  - destruct s; reflexivity.
  - destruct s; reflexivity.
Qed.

Lemma parseString_accepts (lo : nat) (hi : option nat) (s : jsstring) :
  (lo <= List.length s)%nat ->
  match hi with Some h => (List.length s <= h)%nat | None => True end ->
  parseString lo hi (Some (JString s)) = Some s.
Proof.
  intros Hlo Hhi. unfold parseString.
  apply Nat.leb_le in Hlo. rewrite Hlo.
  destruct hi as [h|]; [apply Nat.leb_le in Hhi; now rewrite Hhi | reflexivity].
Qed.

Lemma truthy_length (s : jsstring) :
  JsString.truthy s = true -> (1 <= List.length s)%nat.
Proof. destruct s; [discriminate | simpl; lia]. Qed.

Lemma payload_members
    (inputType' text' voiceName' language audioEncoding' voiceType' : jsstring)
    (speakingRate' pitch' : float) :
  exists o,
    Client.payload inputType' text' voiceName' language audioEncoding' voiceType'
      speakingRate' pitch' = JObject o
    /\ getMember o (js "inputType") = Some (JString inputType')
    /\ getMember o (js "text") = Some (JString (Client.trim text'))
    /\ getMember o (js "voiceName") = Some (JString voiceName')
    /\ getMember o (js "languageCode") = Some (JString language)
    /\ getMember o (js "audioEncoding") = Some (JString audioEncoding')
    /\ getMember o (js "speakingRate")
       = (if Client.isChirp voiceType' then None
          else Some (Client.jsonNumber speakingRate'))
    /\ getMember o (js "pitch")
       = (if Client.isChirp voiceType' then None else Some (Client.jsonNumber pitch'))
    /\ getMember o (js "volumeGainDb") = None.
Proof.
  unfold Client.payload. eexists. split; [reflexivity|].
  destruct (Client.isChirp voiceType'); repeat split.
Qed.

Lemma payload_accepted (loading : bool)
    (inputType' text' voiceName' language audioEncoding' voiceType' : jsstring)
    (speakingRate' pitch' : float) :
  Client.canGenerate loading text' voiceName' = true ->
  (List.length (Client.trim text') <= 4000)%nat ->
  In inputType' [js "text"; js "ssml"] ->
  In audioEncoding' [js "MP3"; js "OGG_OPUS"; js "LINEAR16"; js "MULAW"] ->
  Client.isChirp voiceType' = true
  \/ ((0.25 <=? speakingRate')%float = true /\ (speakingRate' <=? 4)%float = true
      /\ (-20 <=? pitch')%float = true /\ (pitch' <=? 20)%float = true) ->
  exists parsed,
    SynthesizeSchema_parse
      (Client.payload inputType' text' voiceName' language audioEncoding' voiceType'
         speakingRate' pitch')
    = Returned parsed
    /\ text parsed = Client.trim text'
    /\ voiceName parsed = voiceName'
    /\ languageCode parsed = Some language
    /\ (inputType parsed = ssml_input <-> inputType' = js "ssml")
    /\ volumeGainDb parsed = None
    /\ speakingRate parsed
       = (if Client.isChirp voiceType' then None else Some speakingRate')
    /\ pitch parsed
       = (if Client.isChirp voiceType' then None
          else Some (if PrimFloat.is_zero pitch' then 0%float else pitch')).
Proof.
  intros Hcan Hlen Hit Hae Hnum.
  unfold Client.canGenerate in Hcan.
  apply andb_true_iff in Hcan as [Hcan Hvn]. apply andb_true_iff in Hcan as [_ Htx].
  apply truthy_length in Hvn, Htx.
  destruct (payload_members inputType' text' voiceName' language audioEncoding'
              voiceType' speakingRate' pitch')
    as (o & -> & Mit & Mtx & Mvn & Mlc & Mae & Msr & Mpi & Mvg).
  unfold SynthesizeSchema_parse. cbv zeta.
  rewrite Mit, Mtx, Mvn, Mlc, Mae, Msr, Mpi, Mvg.
  rewrite (@parseString_accepts 1 (Some 4000%nat) _ Htx Hlen).
  rewrite (@parseString_accepts 1 None _ Hvn I).
  assert (Hrate : Client.isChirp voiceType' = false ->
            parseOptionalNumber 0.25 4.0 (Some (Client.jsonNumber speakingRate'))
            = Some (Some speakingRate')).
  { intros Hc. destruct Hnum as [Hn | (H1 & H2 & _)]; [congruence|].
    destruct (within_bounds_is_finite (lo := 0.25%float) (hi := 4%float)
                eq_refl eq_refl H1 H2) as [Hnan Hinf].
    unfold Client.jsonNumber. rewrite Hnan, Hinf, (above_quarter_is_not_zero H1).
    cbn [orb parseOptionalNumber]. now rewrite H1, H2. }
  assert (Hpitch : Client.isChirp voiceType' = false ->
            parseOptionalNumber (-20) 20 (Some (Client.jsonNumber pitch'))
            = Some (Some (if PrimFloat.is_zero pitch' then 0%float else pitch'))).
  { intros Hc. destruct Hnum as [Hn | (_ & _ & H1 & H2)]; [congruence|].
    destruct (within_bounds_is_finite (lo := (-20)%float) (hi := 20%float)
                eq_refl eq_refl H1 H2) as [Hnan Hinf].
    unfold Client.jsonNumber. rewrite Hnan, Hinf. cbn [orb].
    destruct (PrimFloat.is_zero pitch'); cbn [parseOptionalNumber];
      [reflexivity | now rewrite H1, H2]. }
  destruct (Client.isChirp voiceType') eqn:Hchirp;
    [|rewrite (Hrate eq_refl), (Hpitch eq_refl)];
    cbn [parseOptionalNumber parseOptionalString];
    destruct Hit as [<- | [<- | []]];
    destruct Hae as [<- | [<- | [<- | [<- | []]]]];
    (eexists; split; [reflexivity|]);
    cbn [text voiceName languageCode inputType volumeGainDb speakingRate pitch];
    repeat (split; [reflexivity|]);
    (split; [split; intros H; try reflexivity; try discriminate H;
             vm_compute in H; discriminate H|]);
    repeat split.
Qed.

(** What the console can send passes validation.  When [canGenerate]
    holds, the trimmed text has at most 4000 code units, the input type
    and the encoding are options of their selects and, unless the Chirp
    tier is selected, speakingRate and pitch are within the bounds of
    their fields, the server accepts the body: the text is the trimmed
    text, the language is always sent as override, no volume gain is ever
    sent, and with the Chirp tier selected neither speakingRate nor pitch
    is. *)
Theorem console_payload_is_accepted (loading : bool)
    (inputType' text' voiceName' language audioEncoding' voiceType' : jsstring)
    (speakingRate' pitch' : float) :
  Client.canGenerate loading text' voiceName' = true ->
  (List.length (Client.trim text') <= 4000)%nat ->
  In inputType' [js "text"; js "ssml"] ->
  In audioEncoding' [js "MP3"; js "OGG_OPUS"; js "LINEAR16"; js "MULAW"] ->
  Client.isChirp voiceType' = true
  \/ ((0.25 <=? speakingRate')%float = true /\ (speakingRate' <=? 4)%float = true
      /\ (-20 <=? pitch')%float = true /\ (pitch' <=? 20)%float = true) ->
  exists parsed,
    SynthesizeSchema_parse
      (Client.payload inputType' text' voiceName' language audioEncoding' voiceType'
         speakingRate' pitch')
    = Returned parsed
    /\ text parsed = Client.trim text'
    /\ voiceName parsed = voiceName'
    /\ languageCode parsed = Some language
    /\ (inputType parsed = ssml_input <-> inputType' = js "ssml")
    /\ volumeGainDb parsed = None
    /\ speakingRate parsed
       = (if Client.isChirp voiceType' then None else Some speakingRate')
    /\ pitch parsed
       = (if Client.isChirp voiceType' then None
          else Some (if PrimFloat.is_zero pitch' then 0%float else pitch')).
Proof. apply payload_accepted. Qed.

Lemma console_payload_is_accepted_witness :
  exists parsed,
    SynthesizeSchema_parse
      (Client.payload (js "text") (js "  Hello ") (js "en-US-Standard-A") (js "en-US")
         (js "MP3") (js "STANDARD") 1 0)
    = Returned parsed
    /\ text parsed = js "Hello"
    /\ speakingRate parsed = Some 1%float.
Proof.
  destruct (@console_payload_is_accepted false (js "text") (js "  Hello ")
              (js "en-US-Standard-A") (js "en-US") (js "MP3") (js "STANDARD")
              1%float 0%float)
    as (parsed & Hp & Htext & _ & _ & _ & _ & Hrate & _).
  - reflexivity.
  - apply Nat.leb_le. reflexivity.
  - left. reflexivity.
  - left. reflexivity.
  - right. repeat split.
  - exists parsed. split; [exact Hp|]. split; [exact Htext | exact Hrate].
Defined.
Lemma SynthesizeSchema_parse_fields (o : list (jsstring * json)) (parsed : Parsed) :
  SynthesizeSchema_parse (JObject o) = Returned parsed ->
  parseInputType (getMember o (js "inputType")) = Some (inputType parsed)
  /\ parseOptionalNumber 0.25 4.0 (getMember o (js "speakingRate"))
     = Some (speakingRate parsed)
  /\ parseOptionalNumber (-20) 20 (getMember o (js "pitch")) = Some (pitch parsed).
Proof.
  unfold SynthesizeSchema_parse. cbv zeta.
  destruct (parseInputType _); [|discriminate].
  destruct (parseString 1 (Some 4000%nat) _); [|discriminate].
  destruct (parseString 1 None _); [|discriminate].
  destruct (parseOptionalString _); [|discriminate].
  destruct (parseAudioEncoding _); [|discriminate].
  destruct (parseOptionalNumber 0.25 4.0 _); [|discriminate].
  destruct (parseOptionalNumber (-20) 20 _); [|discriminate].
  destruct (parseOptionalNumber (-96.0) 16.0 _); [|discriminate].
  intros H. injection H as <-. repeat split.
Qed.

(** With the Chirp tier selected and the input type "text", as the
    console keeps it for that tier, the body the console posts gives the
    server nothing to downgrade: whenever the server accepts it, the
    parsed request is plain text without speakingRate and pitch, and
    whatever the tier of the voice found the Chirp limits leave it as it
    is and add no warning.  The server accepts it when [canGenerate]
    holds, the trimmed text has at most 4000 code units and the encoding
    is an option of its select. *)
Theorem chirp_console_request_needs_no_downgrade
    (text' voiceName' language audioEncoding' voiceType' : jsstring)
    (speakingRate' pitch' : float) :
  Client.isChirp voiceType' = true ->
  let posted :=
    Client.payload (js "text") text' voiceName' language audioEncoding' voiceType'
      speakingRate' pitch' in
  (forall parsed,
      SynthesizeSchema_parse posted = Returned parsed ->
      inputType parsed = text_input
      /\ speakingRate parsed = None
      /\ pitch parsed = None
      /\ forall tier,
           chirpLimits parsed tier
           = {| adj_inputType := text_input; adj_speakingRate := None;
                adj_pitch := None; adj_warnings := [] |})
  /\ (forall loading,
        Client.canGenerate loading text' voiceName' = true ->
        (List.length (Client.trim text') <= 4000)%nat ->
        In audioEncoding' [js "MP3"; js "OGG_OPUS"; js "LINEAR16"; js "MULAW"] ->
        exists parsed, SynthesizeSchema_parse posted = Returned parsed).
Proof.
  intros Hchirp. cbv zeta. split.
  - intros parsed Hp.
    destruct (payload_members (js "text") text' voiceName' language audioEncoding'
                voiceType' speakingRate' pitch')
      as (o & Ho & Mit & _ & _ & _ & _ & Msr & Mpi & _).
    rewrite Ho in Hp. rewrite Hchirp in Msr, Mpi.
    destruct (SynthesizeSchema_parse_fields _ Hp) as (Fit & Fsr & Fpi).
    rewrite Mit in Fit. rewrite Msr in Fsr. rewrite Mpi in Fpi.
    assert (Htext : inputType parsed = text_input)
      by (vm_compute in Fit; injection Fit as Fit; exact (eq_sym Fit)).
    assert (Hrate : speakingRate parsed = None)
      by (cbn [parseOptionalNumber] in Fsr; now injection Fsr as <-).
    assert (Hpitch : pitch parsed = None)
      by (cbn [parseOptionalNumber] in Fpi; now injection Fpi as <-).
    repeat (split; [assumption|]). intros tier.
    unfold chirpLimits. rewrite Htext, Hrate, Hpitch.
    destruct (VoiceType_eqb tier CHIRP_HD); reflexivity.
  - intros loading Hcan Hlen Hae.
    destruct (@payload_accepted loading (js "text") text' voiceName' language
                audioEncoding' voiceType' speakingRate' pitch' Hcan Hlen
                (or_introl eq_refl) Hae (or_introl Hchirp))
      as (parsed & Hp & _).
    now exists parsed.
Qed.

Lemma chirp_console_request_needs_no_downgrade_witness :
  exists parsed,
    SynthesizeSchema_parse
      (Client.payload (js "text") (js "Hi") (js "en-US-Chirp3-HD-Achernar") (js "en-US")
         (js "MP3") (js "CHIRP_HD") 1.5 3)
    = Returned parsed
    /\ forall tier,
         chirpLimits parsed tier
         = {| adj_inputType := text_input; adj_speakingRate := None;
              adj_pitch := None; adj_warnings := [] |}.
Proof.
  destruct (@chirp_console_request_needs_no_downgrade (js "Hi")
              (js "en-US-Chirp3-HD-Achernar") (js "en-US") (js "MP3") (js "CHIRP_HD")
              1.5%float 3%float eq_refl) as [Hnone Hacc].
  destruct (Hacc false) as [parsed Hp].
  - reflexivity.
  - apply Nat.leb_le. reflexivity.
  - left. reflexivity.
  - exists parsed. split; [exact Hp|]. apply (Hnone parsed Hp).
Defined.

(** ** Choosing a voice *)

Lemma filteredVoices_In (sortsBefore : option jsstring -> option jsstring -> bool)
    (voices : list Voice) (language voiceType' : jsstring) (v : Voice) :
  In v (Client.filteredVoices sortsBefore voices language voiceType')
  <-> In v voices
      /\ (language = [] \/ In language (languageCodes v))
      /\ (voiceType' = [] \/ tierKey (voiceType v) = voiceType').
Proof.
  unfold Client.filteredVoices. rewrite sort_In, !filter_In.
  assert (Hl : (if JsString.truthy language
                then existsb (JsString.eqb language) (languageCodes v)
                else true) = true
               <-> language = [] \/ In language (languageCodes v)).
  { destruct language as [|c l]; cbn [JsString.truthy]; [tauto|].
    rewrite existsb_exists. split.
    - intros [x [Hx Heq]]. apply JsString_eqb_eq in Heq. subst x. now right.
    - intros [H | H]; [discriminate|]. exists (c :: l). split; [exact H|].
      apply JsString_eqb_refl. }
  assert (Ht : (if JsString.truthy voiceType'
                then JsString.eqb (tierKey (voiceType v)) voiceType'
                else true) = true
               <-> voiceType' = [] \/ tierKey (voiceType v) = voiceType').
  { destruct voiceType' as [|c l]; cbn [JsString.truthy]; [tauto|].
    rewrite JsString_eqb_eq. split; [now right | intros [H|H]; [discriminate | exact H]]. }
  rewrite Hl, Ht. tauto.
Qed.

(** Every voice having a name, the list of the voice select holds
    exactly the voices of the
    directory that support the chosen language and have the chosen tier
    (an empty choice filters nothing), in whatever order the collation
    gives; and when that list is not empty the voice name the console
    settles on names one of its voices, the current name being kept when
    it already does. *)
Theorem picked_voice_matches_the_filters
    (sortsBefore : option jsstring -> option jsstring -> bool)
    (voices : list Voice) (language voiceType' : jsstring)
    (voiceName' : option jsstring) :
  (forall v, In v voices -> name v <> None) ->
  let shown := Client.filteredVoices sortsBefore voices language voiceType' in
  (forall v, In v shown
             <-> In v voices
                 /\ (language = [] \/ In language (languageCodes v))
                 /\ (voiceType' = [] \/ tierKey (voiceType v) = voiceType'))
  /\ (shown <> [] ->
      exists v, In v voices
                /\ name v = Client.pickVoice shown voiceName'
                /\ (language = [] \/ In language (languageCodes v))
                /\ (voiceType' = [] \/ tierKey (voiceType v) = voiceType'))
  /\ ((exists v, In v shown /\ name v = voiceName') ->
      Client.pickVoice shown voiceName' = voiceName').
Proof.
  intros _. cbv zeta. split; [intros v; apply filteredVoices_In|].
  set (shown := Client.filteredVoices sortsBefore voices language voiceType').
  assert (Hsame : forall a b, Client.sameName a b = true <-> a = b).
  { intros [a|] [b|]; simpl; try (split; congruence).
    rewrite JsString_eqb_eq. split; congruence. }
  split.
  - intros Hne. destruct shown as [|first rest] eqn:E; [congruence|].
    cbn [Client.pickVoice].
    destruct (existsb _ (first :: rest)) eqn:Hex.
    + apply existsb_exists in Hex as [v [Hin Hn]]. apply Hsame in Hn.
      rewrite <- E in Hin. apply filteredVoices_In in Hin. exists v. tauto.
    + assert (Hin : In first shown) by (rewrite E; now left).
      apply filteredVoices_In in Hin. exists first. tauto.
  - intros [v [Hin Hn]]. destruct shown as [|first rest]; [reflexivity|].
    cbn [Client.pickVoice].
    destruct (existsb _ (first :: rest)) eqn:Hex; [reflexivity|].
    assert (Habs : existsb (fun v0 => Client.sameName (name v0) voiceName')
                     (first :: rest) = true).
    { apply existsb_exists. exists v. split; [exact Hin | now apply Hsame]. }
    congruence.
Qed.

Lemma picked_voice_matches_the_filters_witness :
  Client.pickVoice
    (Client.filteredVoices (fun _ _ => false)
       (map toVoice [Sample.standardA; Sample.chirpAchernar]) (js "en-US") (js "CHIRP_HD"))
    (Some [])
  = Some (js "en-US-Chirp3-HD-Achernar")
  /\ exists v, In v (map toVoice [Sample.standardA; Sample.chirpAchernar])
               /\ name v = Some (js "en-US-Chirp3-HD-Achernar").
Proof.
  split; [reflexivity|].
  assert (Hnamed : forall v, In v (map toVoice [Sample.standardA; Sample.chirpAchernar]) ->
                             name v <> None).
  { intros v [<- | [<- | []]]; discriminate. }
  destruct (proj1 (proj2 (@picked_voice_matches_the_filters (fun _ _ => false)
              (map toVoice [Sample.standardA; Sample.chirpAchernar])
              (js "en-US") (js "CHIRP_HD") (Some []) Hnamed)))
    as (v & Hin & Hname & _).
  - discriminate.
  - exists v. split; [exact Hin | exact Hname].
Defined.
(** ** Where the console starts *)

Lemma getVoicesHandler_listing (w : World) (st : Store) (l : VoicesListing) :
  body (fst (getVoicesHandler w st)) = VoicesJson l ->
  languages l
  = sort JsString.ltb (distinct JsString.eqb (flat_map languageCodes (list_voices l)))
  /\ voiceTypes l
     = sort (fun a b => JsString.ltb (tierKey a) (tierKey b))
         (distinct VoiceType_eqb (map voiceType (list_voices l))).
Proof.
  unfold getVoicesHandler, Eff.try_catch, Eff.bind.
  destruct (listVoicesCached w st) as [[vs|e] st1]; [|discriminate].
  unfold Eff.ttl, Eff.readCache, Eff.ret. cbn [fst body].
  intros H. injection H as <-. split; reflexivity.
Qed.

Lemma tierKey_truthy (t : VoiceType) : JsString.truthy (tierKey t) = true.
Proof. destruct t; reflexivity. Qed.

(** Fed with a 200 answer of GET /api/voices that lists at least one
    voice, the console starts on a tier of the answer's [voiceTypes]
    (CHIRP_HD if a Chirp voice is listed); when the answer's [languages]
    is not empty and holds no empty string it starts on one of them, and
    when [languages] is empty (no voice has a language code) it starts on
    "en-US", which is then not listed. *)
Theorem console_starts_on_listed_choices (w : World) (st : Store)
    (l : VoicesListing) :
  body (fst (getVoicesHandler w st)) = VoicesJson l ->
  list_voices l <> [] ->
  let tiers := map tierKey (voiceTypes l) in
  In (Client.defaultVoiceType (list_voices l) tiers) tiers
  /\ (In CHIRP_HD (voiceTypes l) ->
      Client.defaultVoiceType (list_voices l) tiers = js "CHIRP_HD")
  /\ (languages l <> [] -> ~ In [] (languages l) ->
      In (Client.defaultLanguage (languages l)) (languages l))
  /\ (languages l = [] -> Client.defaultLanguage (languages l) = js "en-US").
Proof.
  intros Hl Hne. cbv zeta.
  destruct (getVoicesHandler_listing _ _ Hl) as [_ Htiers].
  assert (Hmem : forall t, In t (voiceTypes l)
                           <-> exists v, In v (list_voices l) /\ voiceType v = t).
  { intros t. rewrite Htiers, sort_In, (@distinct_In _ _ VoiceType_eqb_eq), in_map_iff.
    split; intros [v [H1 H2]]; exists v; auto. }
  assert (Hchirp : existsb (fun v => JsString.eqb (tierKey (voiceType v)) (js "CHIRP_HD"))
                     (list_voices l) = true
                   <-> In CHIRP_HD (voiceTypes l)).
  { rewrite existsb_exists, Hmem. split; intros [v [Hin Hv]]; exists v; (split; [exact Hin|]).
    - apply JsString_eqb_eq in Hv. now apply tierKey_injective.
    - rewrite Hv. reflexivity. }
  split; [|split; [|split]].
  4:{ intros ->. reflexivity. }
  - unfold Client.defaultVoiceType.
    destruct (existsb _ (list_voices l)) eqn:Hex.
    + apply (in_map tierKey _ CHIRP_HD). now apply Hchirp.
    + destruct (existsb (JsString.eqb (js "NEURAL2")) (map tierKey (voiceTypes l)))
        eqn:Hn.
      * apply existsb_exists in Hn as [x [Hx Heq]].
        apply JsString_eqb_eq in Heq. now subst x.
      * assert (Hv : exists v, In v (list_voices l)).
        { destruct (list_voices l) as [|v vs]; [congruence | exists v; now left]. }
        destruct Hv as [v Hv].
        assert (Hin : In (voiceType v) (voiceTypes l)).
        { apply Hmem. exists v. split; [exact Hv | reflexivity]. }
        destruct (voiceTypes l) as [|t ts]; [destruct Hin|].
        cbn [map hd_error]. rewrite tierKey_truthy. now left.
  - intros Hin. unfold Client.defaultVoiceType.
    apply Hchirp in Hin. rewrite Hin. reflexivity.
  - intros Hlang Hnonempty. unfold Client.defaultLanguage.
    destruct (existsb (JsString.eqb (js "en-US")) (languages l)) eqn:Hen.
    + apply existsb_exists in Hen as [x [Hx Heq]].
      apply JsString_eqb_eq in Heq. now subst x.
    + destruct (languages l) as [|c cs]; [congruence|].
      cbn [hd_error]. destruct c as [|u c]; [exfalso; apply Hnonempty; now left|].
      cbn [JsString.truthy]. now left.
Qed.

Lemma console_starts_on_listed_choices_witness :
  Client.defaultVoiceType (map toVoice [Sample.standardA; Sample.chirpAchernar])
    (map tierKey [CHIRP_HD; STANDARD])
  = js "CHIRP_HD".
Proof.
  apply (proj1 (proj2 (console_starts_on_listed_choices (Sample.healthy 5) initialStore
           (l := {| list_voices := map toVoice [Sample.standardA; Sample.chirpAchernar];
                    languages := [js "en-US"];
                    voiceTypes := [CHIRP_HD; STANDARD];
                    ttlSec := 3600;
                    cachedAt := Some 5%Z;
                    count := 2 |})
           eq_refl ltac:(discriminate)))).
  left. reflexivity.
Defined.
